(** * Cebu pocket guide: location-based place recommendation ([app.py])

    A shallow embedding of the search adapter ([haversine], [search_places]),
    of the filter / sort / truncate pipeline of the main script and of its
    Grab fare estimate, together with the properties stated for them.

    Modelling conventions.
    - A Python [float] (and an [int] used in arithmetic with one) is a real
      number of [R]: rounding, NaN and infinities are not represented.
    - A parsed JSON document is a value of [json]; an object is the list of
      its (key, value) pairs and [dict_get] is the lookup [dict.get].
    - An exception is a value of [py_exception]; code that may raise lives in
      the error monad [exc].  [st.error] messages are collected in a list.
    - What the network does ([requests.get], the HTTP status, the body) is an
      explicit argument of type [transport].
    - Time is an explicit number of seconds handed to the cache. *)

From Stdlib Require Import Reals Lra Lia ZArith String List Bool.
From Stdlib Require Import Permutation Sorted.
Import ListNotations.

Set Implicit Arguments.
Set Warnings "-register-all".

Local Open Scope R_scope.

(** ** Exceptions and the error monad *)

Inductive py_exception : Type :=
| Timeout                              (* requests.exceptions.Timeout *)
| RequestException (cause : string)    (* any other requests RequestException *)
| AttributeError                       (* [.get] on something that is no dict *)
| TypeError                            (* arithmetic / comparison / iteration *)
| ValueError                           (* math domain error *)
| ZeroDivisionError
| OtherException (cause : string).

Definition exc (A : Type) : Type := (py_exception + A)%type.

Definition ret {A : Type} (a : A) : exc A := inr a.
Definition raise {A : Type} (e : py_exception) : exc A := inl e.

Definition bind {A B : Type} (c : exc A) (k : A -> exc B) : exc B :=
  match c with
  | inl e => inl e
  | inr a => k a
  end.

Notation "x <- c ;; k" := (bind c (fun x => k))
  (at level 61, c at next level, right associativity).

(** ** Geo utility *)

(** [math.radians] *)
Definition radians (x : R) : R := x * (PI / 180).

(** [math.sqrt]: raises [ValueError] on a negative argument. *)
Definition math_sqrt (x : R) : exc R :=
  if Rlt_dec x 0 then raise ValueError else ret (sqrt x).

(** [math.atan2 y x]: the angle of the point [(x, y)], in (-PI, PI]. *)
Definition math_atan2 (y x : R) : R :=
  if Rlt_dec 0 x then atan (y / x)
  else if Rlt_dec x 0 then
         (if Rle_dec 0 y then atan (y / x) + PI else atan (y / x) - PI)
  else if Rlt_dec 0 y then PI / 2
  else if Rlt_dec y 0 then - (PI / 2)
  else 0.

(** The quantity [a] of [haversine] (lines 52-55). *)
Definition haversine_a (lat1 lon1 lat2 lon2 : R) : R :=
  let dlat := radians (lat2 - lat1) in
  let dlon := radians (lon2 - lon1) in
  sin (dlat / 2) ^ 2
  + cos (radians lat1) * cos (radians lat2) * sin (dlon / 2) ^ 2.

(** Over the reals [a] stays within [0, 1]; in the source it is a rounded
    float, which can leave that interval (see [haversine_tail]). *)
Definition haversine (lat1 lon1 lat2 lon2 : R) : exc R :=
  let R_ := 6371 in
  let a := haversine_a lat1 lon1 lat2 lon2 in
  sa <- math_sqrt a ;;
  sb <- math_sqrt (1 - a) ;;
  ret (R_ * 2 * math_atan2 sa sb).


(** ** Parsed JSON values (what [resp.json()] returns) *)

Inductive json : Type :=
| JNull                                   (* None *)
| JBool (b : bool)
| JNum (x : R)                            (* int or float *)
| JStr (s : string)
| JList (items : list json)
| JObj (fields : list (string * json)).   (* dict *)

Fixpoint dict_get (key : string) (d : list (string * json)) : option json :=
  match d with
  | [] => None
  | (k, v) :: d' => if String.eqb k key then Some v else dict_get key d'
  end.

(** [x.get(key, default)]: only a dict has [.get]. *)
Definition py_get (x : json) (key : string) (default : json) : exc json :=
  match x with
  | JObj d =>
      ret (match dict_get key d with Some v => v | None => default end)
  | _ => raise AttributeError
  end.

(** [for p in x]: a list yields its items, a dict its keys, a string its
    characters (here: its bytes); anything else is not iterable. *)
Definition py_iter (x : json) : exc (list json) :=
  match x with
  | JList items => ret items
  | JObj d => ret (map (fun kv => JStr (fst kv)) d)
  | JStr s =>
      ret (map (fun c => JStr (String c EmptyString)) (list_ascii_of_string s))
  | _ => raise TypeError
  end.

(** A value used as a number in float arithmetic or in a comparison with a
    float: numbers, and booleans as 0 and 1; [TypeError] otherwise.  (An
    integer beyond the range of a float, on which the source raises
    OverflowError, has no counterpart among the reals.) *)
Definition py_float (x : json) : exc R :=
  match x with
  | JNum r => ret r
  | JBool b => ret (if b then 1 else 0)
  | _ => raise TypeError
  end.

(** [x == s] for a string literal [s]. *)
Definition is_str (x : json) (s : string) : bool :=
  match x with
  | JStr s' => String.eqb s' s
  | _ => false
  end.

Fixpoint map_exc {A B : Type} (f : A -> exc B) (l : list A) : exc (list B) :=
  match l with
  | [] => ret []
  | a :: l' => b <- f a ;; bs <- map_exc f l' ;; ret (b :: bs)
  end.

(** ** Normalised place records (the dict built at lines 96-106) *)

Module Place.
Record t : Type := mk {
  name : json;
  rating : json;
  reviews : json;
  lat : json;
  lng : json;
  address : json;
  is_open : json;
  place_id : json;
  dist_km : R
}.
End Place.

Definition place : Type := Place.t.

Definition NO_NAME : string := "이름 없음".
Definition UNKNOWN_ERROR : string := "알 수 없는 오류".

(** One iteration of the loop of lines 84-106. *)
Definition normalize (lat lng : R) (p : json) : exc place :=
  geometry <- py_get p "geometry" (JObj []) ;;
  loc <- py_get geometry "location" (JObj []) ;;
  p_lat <- py_get loc "lat" (JNum 0) ;;
  p_lng <- py_get loc "lng" (JNum 0) ;;
  opening <- py_get p "opening_hours" JNull ;;
  is_open <- match opening with
             | JNull => ret JNull
             | _ => py_get opening "open_now" JNull
             end ;;
  name <- py_get p "name" (JStr NO_NAME) ;;
  rating <- py_get p "rating" (JNum 0) ;;
  reviews <- py_get p "user_ratings_total" (JNum 0) ;;
  address <- py_get p "vicinity" (JStr "") ;;
  place_id <- py_get p "place_id" (JStr "") ;;
  lat2 <- py_float p_lat ;;
  lon2 <- py_float p_lng ;;
  d <- haversine lat lng lat2 lon2 ;;
  ret (Place.mk name rating reviews p_lat p_lng address is_open place_id d).

(** ** The HTTP exchange *)

Record request : Type := {
  url : string;
  location : R * R;        (* sent as "lat,lng" *)
  radius : Z;
  keyword : string;
  language : string;
  key : string
}.

Record response : Type := {
  status_code : Z;
  body : option json       (* None: the body is not valid JSON *)
}.

(** What [requests.get(url, params=params, timeout=10)] does: it raises
    ([Timeout] when the 10 seconds are exceeded) or returns a response. *)
Inductive transport : Type :=
| GetRaises (e : py_exception)
| GetReturns (r : response).

Definition requests_get (t : transport) : exc response :=
  match t with
  | GetRaises e => raise e
  | GetReturns r => ret r
  end.

(** [resp.raise_for_status()]: HTTPError, a RequestException, on 4xx / 5xx. *)
Definition raise_for_status (r : response) : exc unit :=
  if ((400 <=? status_code r) && (status_code r <? 600))%Z
  then raise (RequestException "HTTPError")
  else ret tt.

(** [resp.json()]: requests' JSONDecodeError is a RequestException. *)
Definition resp_json (r : response) : exc json :=
  match body r with
  | Some data => ret data
  | None => raise (RequestException "JSONDecodeError")
  end.

(** ** [search_places] *)

(** The [st.error] calls of [search_places]. *)
Inductive ui_error : Type :=
| ApiError (error_msg : json)            (* line 80 *)
| TimeoutMessage                         (* line 111 *)
| NetworkError (e : py_exception)        (* line 114 *)
| UnexpectedError (e : py_exception).    (* line 117 *)

Definition PLACES_URL : string :=
  "https://maps.googleapis.com/maps/api/place/nearbysearch/json".

(** [data.get("status") not in ("OK", "ZERO_RESULTS")], negated. *)
Definition accepted_status (status : json) : bool :=
  is_str status "OK" || is_str status "ZERO_RESULTS".

Section Adapter.

Variable GOOGLE_API_KEY : string.
(** The network: the outcome of the GET for a given request. *)
Variable net : request -> transport.

(** [url] and [params] (lines 64-71). *)
Definition build_request (lat lng : R) (keyword : string) (radius : Z)
  : request :=
  {| url := PLACES_URL; location := (lat, lng); radius := radius;
     keyword := keyword; language := "ko"; key := GOOGLE_API_KEY |}.

(** The body of the [try] (lines 74-108): messages shown and list returned. *)
Definition search_try (lat lng : R) (keyword : string) (radius : Z)
  : exc (list ui_error * list place) :=
  resp <- requests_get (net (build_request lat lng keyword radius)) ;;
  _ <- raise_for_status resp ;;
  data <- resp_json resp ;;
  status <- py_get data "status" JNull ;;
  if negb (accepted_status status) then
    fallback <- py_get data "status" (JStr UNKNOWN_ERROR) ;;
    error_msg <- py_get data "error_message" fallback ;;
    ret ([ApiError error_msg], [])
  else
    listed <- py_get data "results" (JList []) ;;
    items <- py_iter listed ;;
    results <- map_exc (normalize lat lng) items ;;
    ret ([], results).

(** The [except] clauses (lines 110-118), tried in order. *)
Definition handler (e : py_exception) : list ui_error * list place :=
  match e with
  | Timeout => ([TimeoutMessage], [])
  | RequestException _ => ([NetworkError e], [])
  | _ => ([UnexpectedError e], [])
  end.

Definition search_places (lat lng : R) (keyword : string) (radius : Z)
  : list ui_error * list place :=
  match search_try lat lng keyword radius with
  | inr out => out
  | inl e => handler e
  end.

End Adapter.

(** The messages shown and the list returned by a call. *)
Definition shown (out : list ui_error * list place) : list ui_error := fst out.
Definition returned (out : list ui_error * list place) : list place := snd out.

(** ** Filter, sort, truncate (lines 181-183) *)

(** [filtered.sort(key=lambda x: x["dist_km"])]: Python's sort is stable and
    compares keys with [<].  It is modelled by a stable insertion sort; the
    list is sorted in place in the source and returned here. *)
Fixpoint insert_by_dist (x : place) (l : list place) : list place :=
  match l with
  | [] => [x]
  | y :: l' =>
      if Rlt_dec (Place.dist_km y) (Place.dist_km x)
      then y :: insert_by_dist x l'
      else x :: y :: l'
  end.

Definition sort_by_dist (l : list place) : list place :=
  fold_right insert_by_dist [] l.

Fixpoint filter_exc {A : Type} (f : A -> exc bool) (l : list A) : exc (list A) :=
  match l with
  | [] => ret []
  | a :: l' =>
      keep <- f a ;;
      rest <- filter_exc f l' ;;
      ret (if keep then a :: rest else rest)
  end.

Section Pipeline.

(** The two policy constants of the source, [4.0] and [10]. *)
Variable min_rating : R.
Variable top_n : nat.

(** [p["rating"] >= min_rating] *)
Definition rating_ok (p : place) : exc bool :=
  r <- py_float (Place.rating p) ;;
  ret (if Rle_dec min_rating r then true else false).

(** [[p for p in raw if p["rating"] >= min_rating]] *)
Definition filtered (raw : list place) : exc (list place) :=
  filter_exc rating_ok raw.

(** Filter, sort by distance, keep the first [top_n]. *)
Definition recommend (raw : list place) : exc (list place) :=
  kept <- filtered raw ;;
  ret (firstn top_n (sort_by_dist kept)).

End Pipeline.

Definition MIN_RATING : R := 4.
Definition TOP_N : nat := 10.

(** [top10] as the script computes it. *)
Definition top10 (raw : list place) : exc (list place) :=
  recommend MIN_RATING TOP_N raw.

(** ** The rest of the main script *)

(** The three labels of lines 197-202. *)
Inductive open_status : Type :=
| OPEN       (* "영업중" *)
| CLOSED     (* "영업 종료" *)
| UNKNOWN.   (* "정보 없음" *)

Definition status (p : place) : open_status :=
  match Place.is_open p with
  | JBool true => OPEN
  | JBool false => CLOSED
  | _ => UNKNOWN
  end.

(** [max(a, b)] of two numbers: [b] only when [b > a]. *)
Definition py_max (a b : R) : R := if Rlt_dec a b then b else a.

(** [sum(p["dist_km"] for p in l)]: added left to right, starting from 0. *)
Definition sum_dist (l : list place) : R :=
  fold_left (fun acc p => acc + Place.dist_km p) l 0.

(** [total / len(l)]: dividing by zero raises. *)
Definition py_div_len (total : R) (n : nat) : exc R :=
  match n with
  | O => raise ZeroDivisionError
  | S _ => ret (total / INR n)
  end.

(** Lines 242-243 (the exact sum and quotient; the source rounds both). *)
Definition avg_dist (top : list place) : exc R :=
  py_div_len (sum_dist top) (length top).

Definition grab_est (avg_dist : R) : R :=
  py_max 60 (40 + avg_dist * 15).

(** What the page shows below the sidebar. *)
Record results_page : Type := {
  cards : list (place * open_status);   (* lines 193-225 *)
  found : nat;                          (* len(top10), line 189 *)
  total : nat;                          (* len(raw), line 189 *)
  grab : option (R * R)                 (* (avg_dist, grab_est), lines 241-247 *)
}.

Inductive page : Type :=
| NoResults                    (* warning and [st.stop()], lines 176-178 *)
| NoRatedPlaces                (* warning and [st.stop()], lines 185-187 *)
| Results (r : results_page).

(** [f"{v:,}"] (line 218): the thousands separator is a format of numbers;
    a string raises ValueError, None, a list and a dict raise TypeError. *)
Definition format_thousands (v : json) : exc unit :=
  match v with
  | JNum _ | JBool _ => ret tt
  | JStr _ => raise ValueError
  | _ => raise TypeError
  end.

(** Lines 176-247 for a given [raw]: what is computed and what can raise,
    not how it is laid out.  The filter (line 181) and the format of the
    review count of a card (line 218) can raise; nothing catches it. *)
Definition main (raw : list place) : exc page :=
  match raw with
  | [] => ret NoResults
  | _ :: _ =>
      top <- top10 raw ;;
      match top with
      | [] => ret NoRatedPlaces
      | _ :: _ =>
          _ <- map_exc (fun p => format_thousands (Place.reviews p)) top ;;
          info <- match top with
                  | [] => ret None
                  | _ :: _ =>
                      avg <- avg_dist top ;;
                      ret (Some (avg, grab_est avg))
                  end ;;
          ret (Results
                 {| cards := map (fun p => (p, status p)) top;
                    found := length top;
                    total := length raw;
                    grab := info |})
      end
  end.

(** ** [st.cache_data(ttl=3600)]

    The decorator belongs to the UI framework.  It is modelled as
    memoisation of the value the function returns, per argument tuple, an
    entry being served while it is younger than [ttl] seconds. *)

Section CacheData.

Variables K V : Type.
Variable K_eq_dec : forall a b : K, {a = b} + {a <> b}.
Variable ttl : nat.

Record entry : Type := { stored_at : nat; value : V }.

Definition cache : Type := list (K * entry).

Fixpoint cache_lookup (k : K) (c : cache) : option entry :=
  match c with
  | [] => None
  | (k', e) :: c' => if K_eq_dec k' k then Some e else cache_lookup k c'
  end.

Definition fresh (now : nat) (e : entry) : bool :=
  (now <? stored_at e + ttl)%nat.

(** A call at time [now]: the value, whether the function body ran, and
    the cache afterwards. *)
Record cached_call : Type := {
  result : V;
  computed : bool;
  cache_after : cache
}.

Definition cache_data (f : K -> V) (c : cache) (now : nat) (k : K)
  : cached_call :=
  let miss :=
    let v := f k in
    {| result := v; computed := true;
       cache_after := (k, {| stored_at := now; value := v |}) :: c |} in
  match cache_lookup k c with
  | Some e =>
      if fresh now e
      then {| result := value e; computed := false; cache_after := c |}
      else miss
  | None => miss
  end.

End CacheData.

(** The arguments of [search_places], which are the cache key. *)
Definition search_key : Type := (R * R * string * Z)%type.

Definition search_key_eq_dec (a b : search_key) : {a = b} + {a <> b}.
Proof.
  decide equality; [apply Z.eq_dec |].
  decide equality; [apply string_dec |].
  decide equality; apply Req_dec_T.
Defined.

Definition TTL : nat := 3600.

(** [search_places] as a function of its argument tuple; its value is the
    list it returns. *)
Definition search_places_of_key (GOOGLE_API_KEY : string)
    (net : request -> transport) (k : search_key) : list place :=
  let '(lat, lng, keyword, radius) := k in
  returned (search_places GOOGLE_API_KEY net lat lng keyword radius).

(** The decorated [search_places].  [net] is the network as it is at the
    time of the call. *)
Definition cached_search_places (GOOGLE_API_KEY : string)
    (c : cache search_key (list place)) (now : nat)
    (net : request -> transport) (k : search_key)
  : cached_call search_key (list place) :=
  cache_data search_key_eq_dec TTL (search_places_of_key GOOGLE_API_KEY net)
             c now k.

(** ** Vocabulary of the statements *)

(** A call of [search_places] failed when it showed an error message. *)
Definition failed (out : list ui_error * list place) : Prop := shown out <> [].

(** What the provider says about "open now" in an item. *)
Definition reports_open_now (fields : list (string * json)) (b : bool) : Prop :=
  exists hours,
    dict_get "opening_hours" fields = Some (JObj hours) /\
    dict_get "open_now" hours = Some (JBool b).

Definition omits_open_now (fields : list (string * json)) : Prop :=
  dict_get "opening_hours" fields = None \/
  exists hours,
    dict_get "opening_hours" fields = Some (JObj hours) /\
    dict_get "open_now" hours = None.

(** [geometry.location.<coord>] of an item, when the provider gives it. *)
Definition reported_coordinate (fields : list (string * json)) (coord : string)
  : option json :=
  match dict_get "geometry" fields with
  | Some (JObj geometry) =>
      match dict_get "location" geometry with
      | Some (JObj loc) => dict_get coord loc
      | _ => None
      end
  | _ => None
  end.

(** The record passes the rating filter. *)
Definition passes (min_rating : R) (p : place) : bool :=
  match py_float (Place.rating p) with
  | inr r => if Rle_dec min_rating r then true else false
  | inl _ => false
  end.

Definition by_dist (p q : place) : Prop := Place.dist_km p <= Place.dist_km q.

Definition dist_is (d : R) (p : place) : bool :=
  if Req_dec_T (Place.dist_km p) d then true else false.

(** Provider calls made by a cached call. *)
Definition calls {K V : Type} (r : cached_call K V) : nat :=
  if computed r then 1%nat else 0%nat.

(** The items of the [results] list of the response to a request. *)
Definition listed_items (t : transport) : list json :=
  match t with
  | GetReturns r =>
      match body r with
      | Some data =>
          match py_get data "results" (JList []) with
          | inr listed =>
              match py_iter listed with
              | inr items => items
              | inl _ => []
              end
          | inl _ => []
          end
      | None => []
      end
  | GetRaises _ => []
  end.

(** The [status] and the message of a provider answer. *)
Definition provider_status (d : list (string * json)) : json :=
  match dict_get "status" d with Some s => s | None => JNull end.

Definition provider_message (d : list (string * json)) : json :=
  match dict_get "error_message" d with
  | Some m => m
  | None =>
      match dict_get "status" d with
      | Some s => s
      | None => JStr UNKNOWN_ERROR
      end
  end.

(** ** Sample data *)

(** A network that answers every request with status 200 and [data]. *)
Definition replies (data : json) : request -> transport :=
  fun _ => GetReturns {| status_code := 200; body := Some data |}.

Definition times_out : request -> transport :=
  fun _ => GetRaises Timeout.

Definition answer_zero_results : json :=
  JObj [("status", JStr "ZERO_RESULTS"); ("results", JList [])]%string.

Definition answer_over_query_limit : json :=
  JObj [("status", JStr "OVER_QUERY_LIMIT");
        ("error_message", JStr "You have exceeded your daily request quota.");
        ("results", JList [])]%string.

(** An item with every field given. *)
Definition item_full : list (string * json) :=
  [("name", JStr "Spa");
   ("rating", JNum 4.5);
   ("user_ratings_total", JNum 120);
   ("geometry",
     JObj [("location", JObj [("lat", JNum 10.3119); ("lng", JNum 123.8916)])]);
   ("opening_hours", JObj [("open_now", JBool true)]);
   ("vicinity", JStr "Cebu City");
   ("place_id", JStr "abc")]%string.

Definition answer_ok : json :=
  JObj [("status", JStr "OK"); ("results", JList [JObj item_full; JObj []])]%string.

Definition place_full (lat lng : R) : place :=
  Place.mk (JStr "Spa") (JNum 4.5) (JNum 120) (JNum 10.3119) (JNum 123.8916)
           (JStr "Cebu City") (JBool true) (JStr "abc")
           (2 * 6371 * asin (sqrt (haversine_a lat lng 10.3119 123.8916))).

(** The record of an item without any field, seen from [(lat, lng)]. *)
Definition place_default (lat lng : R) : place :=
  Place.mk (JStr NO_NAME) (JNum 0) (JNum 0) (JNum 0) (JNum 0)
           (JStr "") JNull (JStr "")
           (2 * 6371 * asin (sqrt (haversine_a lat lng 0 0))).

(** A record with a given rating and distance. *)
Definition rated (rating dist : R) : place :=
  Place.mk (JStr NO_NAME) (JNum rating) (JNum 0) (JNum 0) (JNum 0)
           (JStr "") JNull (JStr "") dist.

(** Ratings 3.9, 4.0, 4.5 at 2, 1 and 3 km. *)
Definition sample_raw : list place := [rated 3.9 2; rated 4 1; rated 4.5 3].

(** ** Configuration tables (lines 18-42) and the sidebar (lines 134-165) *)

Definition HOTELS : list (string * (R * R)) :=
  [("워터프론트 세부시티 호텔", (10.3119, 123.8916));
   ("뫼벤픽 막탄 리조트", (10.2655, 123.9633))]%string.

Definition CATEGORIES : list (string * string) :=
  [("💆 마사지/스파", "spa|massage");
   ("🍽️ 맛집", "restaurant");
   ("☕ 카페", "cafe");
   ("🏄 액티비티", "tourist_attraction");
   ("🪩 클럽", "night_club");
   ("🍺 바/펍", "bar");
   ("🎤 KTV/노래방", "karaoke")]%string.

(** Cost per person in pesos: minimum, maximum, note. *)
Definition COST_TABLE : list (string * (Z * Z * string)) :=
  [("💆 마사지/스파", (300, 800, "1시간 기준, 타이/오일 마사지"));
   ("🍽️ 맛집", (200, 1500, "로컬 식당~레스토랑 1인"));
   ("☕ 카페", (100, 300, "커피+디저트 1인"));
   ("🏄 액티비티", (800, 5000, "스노클링~아일랜드호핑"));
   ("🪩 클럽", (500, 2000, "입장료+음료 2~3잔"));
   ("🍺 바/펍", (200, 800, "맥주/칵테일 2~3잔"));
   ("🎤 KTV/노래방", (300, 1500, "1~2시간 룸+음료"))]%string%Z.

(** [d[key]] on a table: KeyError when the key is absent. *)
Fixpoint table_get {A : Type} (key : string) (d : list (string * A)) : exc A :=
  match d with
  | [] => raise (OtherException "KeyError")
  | (k, v) :: d' => if String.eqb k key then ret v else table_get key d'
  end.

(** [list(d.keys())], the options of a select box. *)
Definition keys {A : Type} (d : list (string * A)) : list string := map fst d.

(** The options of the radius radio button, in km. *)
Definition RADIUS_OPTIONS : list Z := [1; 3; 5]%Z.

(** The bounds of the exchange-rate input. *)
Definition RATE_MIN : R := 1.
Definition RATE_MAX : R := 100.

(** [int(x)] of a float: truncation towards zero. *)
Definition py_int (x : R) : Z :=
  if Rle_dec 0 x then Int_part x else (- Int_part (- x))%Z.

(** [int(amount * exchange_rate)] (lines 163, 236, 237 and 246), of the
    exact product; the source truncates the rounded product. *)
Definition to_won (amount exchange_rate : R) : Z :=
  py_int (amount * exchange_rate).

Module Sidebar.
Record t : Type := mk {
  base_lat : R;
  base_lng : R;
  keyword : string;
  radius_m : Z;
  cost_min : Z;
  cost_max : Z;
  cost_note : string;
  won_min : Z;
  won_max : Z
}.
End Sidebar.

(** What the sidebar derives from the four inputs. *)
Definition sidebar (hotel category : string) (radius_km : Z) (exchange_rate : R)
  : exc Sidebar.t :=
  base <- table_get hotel HOTELS ;;
  keyword <- table_get category CATEGORIES ;;
  let radius_m := (radius_km * 1000)%Z in
  cost <- table_get category COST_TABLE ;;
  let '(cost_min, cost_max, cost_note) := cost in
  ret (Sidebar.mk (fst base) (snd base) keyword radius_m
                  cost_min cost_max cost_note
                  (to_won (IZR cost_min) exchange_rate)
                  (to_won (IZR cost_max) exchange_rate)).

(** ** More vocabulary *)

(** A value [haversine] and the rating filter accept as a number. *)
Definition is_number (v : json) : bool :=
  match v with
  | JNum _ | JBool _ => true
  | _ => false
  end.

Definition number_or_absent (v : option json) : bool :=
  match v with
  | None => true
  | Some w => is_number w
  end.

(** The items the loop of [search_places] can normalise. *)
Definition well_formed_item (item : json) : bool :=
  match item with
  | JObj fields =>
      match dict_get "geometry" fields with
      | None => true
      | Some (JObj geometry) =>
          match dict_get "location" geometry with
          | None => true
          | Some (JObj loc) =>
              number_or_absent (dict_get "lat" loc) &&
              number_or_absent (dict_get "lng" loc)
          | Some _ => false
          end
      | Some _ => false
      end
      &&
      match dict_get "opening_hours" fields with
      | None | Some JNull | Some (JObj _) => true
      | Some _ => false
      end
  | _ => false
  end.

Definition has_number_rating (p : place) : bool := is_number (Place.rating p).

(** An accepted answer whose second item is not an object. *)
Definition answer_one_bad : json :=
  JObj [("status", JStr "OK");
        ("results", JList [JObj item_full; JStr "closed"])]%string.

(** A call of the decorated [search_places]: its time, the network at that
    time, its arguments. *)
Definition search_call : Type := (nat * (request -> transport) * search_key)%type.

(** The caches the decorated [search_places] can have built, starting
    from the empty cache of a fresh process, with the calls made so far
    (the latest first). *)
Inductive reachable (GOOGLE_API_KEY : string)
  : list search_call -> cache search_key (list place) -> Prop :=
| reachable_empty : reachable GOOGLE_API_KEY [] []
| reachable_call (h : list search_call) (c : cache search_key (list place))
    (now : nat) (net : request -> transport) (k : search_key) :
    reachable GOOGLE_API_KEY h c ->
    reachable GOOGLE_API_KEY ((now, net, k) :: h)
      (cache_after (cached_search_places GOOGLE_API_KEY c now net k)).

(** * Properties *)

(** Deciding the comparisons of real constants met while evaluating. *)
Ltac real_cases :=
  repeat match goal with
         | |- context [Rle_dec ?a ?b] => destruct (Rle_dec a b); try lra
         | |- context [Rlt_dec ?a ?b] => destruct (Rlt_dec a b); try lra
         end.

(** ** Geo utility *)

Lemma radians_sub (x y : R) : radians (x - y) = radians x - radians y.
Proof. unfold radians. ring. Qed.

Lemma sin_half_sq (x : R) : sin (x / 2) ^ 2 = (1 - cos x) / 2.
Proof.
  pose proof (cos_2a_sin (x / 2)) as H.
  replace (2 * (x / 2)) with x in H by field.
  rewrite H. field.
Qed.

Lemma sin_sq_bounds (x : R) : 0 <= sin x ^ 2 <= 1.
Proof.
  pose proof (sin2_cos2 x) as H. unfold Rsqr in H.
  pose proof (pow2_ge_0 (sin x)). pose proof (pow2_ge_0 (cos x)).
  simpl in *. lra.
Qed.

Lemma haversine_a_bounds (lat1 lon1 lat2 lon2 : R) :
  0 <= haversine_a lat1 lon1 lat2 lon2 <= 1.
Proof.
  unfold haversine_a. cbv zeta.
  rewrite sin_half_sq, radians_sub, cos_minus.
  set (t := sin (radians (lon2 - lon1) / 2) ^ 2).
  assert (Ht : 0 <= t <= 1) by apply sin_sq_bounds.
  set (c1 := cos (radians lat1)). set (c2 := cos (radians lat2)).
  set (s1 := sin (radians lat1)). set (s2 := sin (radians lat2)).
  assert (H1 : s1 * s1 + c1 * c1 = 1) by apply (sin2_cos2 (radians lat1)).
  assert (H2 : s2 * s2 + c2 * c2 = 1) by apply (sin2_cos2 (radians lat2)).
  assert (A0 : 0 <= 1 - c2 * c1 - s2 * s1)
    by (pose proof (pow2_ge_0 (c1 - c2)); pose proof (pow2_ge_0 (s1 - s2)); simpl in *; nra).
  assert (A1 : 0 <= 1 + c2 * c1 + s2 * s1)
    by (pose proof (pow2_ge_0 (c1 + c2)); pose proof (pow2_ge_0 (s1 + s2)); simpl in *; nra).
  assert (B0 : 0 <= 1 + c2 * c1 - s2 * s1)
    by (pose proof (pow2_ge_0 (c1 + c2)); pose proof (pow2_ge_0 (s1 - s2)); simpl in *; nra).
  assert (B1 : 0 <= 1 - c2 * c1 + s2 * s1)
    by (pose proof (pow2_ge_0 (c1 - c2)); pose proof (pow2_ge_0 (s1 + s2)); simpl in *; nra).
  split; nra.
Qed.

Lemma math_sqrt_nonneg (x : R) : 0 <= x -> math_sqrt x = inr (sqrt x).
Proof.
  intros Hx. unfold math_sqrt. destruct (Rlt_dec x 0); [lra | reflexivity].
Qed.

Lemma haversine_value (lat1 lon1 lat2 lon2 : R) :
  haversine lat1 lon1 lat2 lon2 =
  inr (6371 * 2 * math_atan2 (sqrt (haversine_a lat1 lon1 lat2 lon2))
                             (sqrt (1 - haversine_a lat1 lon1 lat2 lon2))).
Proof.
  pose proof (haversine_a_bounds lat1 lon1 lat2 lon2) as [H0 H1].
  unfold haversine. cbv zeta.
  rewrite (math_sqrt_nonneg H0). cbn [bind].
  rewrite math_sqrt_nonneg by lra. reflexivity.
Qed.

Lemma math_atan2_quadrant (y x : R) : 0 <= y -> 0 <= x -> 0 <= math_atan2 y x.
Proof.
  intros Hy Hx. unfold math_atan2.
  destruct (Rlt_dec 0 x) as [Hpos | _].
  - destruct (Req_dec y 0) as [-> | Hne].
    + unfold Rdiv. rewrite Rmult_0_l, atan_0. lra.
    + left. rewrite <- atan_0. apply atan_increasing.
      apply Rdiv_lt_0_compat; lra.
  - destruct (Rlt_dec x 0); [lra |].
    pose proof PI_RGT_0.
    destruct (Rlt_dec 0 y); [lra |].
    destruct (Rlt_dec y 0); lra.
Qed.

Lemma math_atan2_asin (a : R) :
  0 <= a <= 1 -> math_atan2 (sqrt a) (sqrt (1 - a)) = asin (sqrt a).
Proof.
  intros [H0 H1]. unfold math_atan2.
  destruct (Req_dec a 1) as [-> | Hne].
  - replace (1 - 1) with 0 by ring. rewrite sqrt_0, sqrt_1.
    destruct (Rlt_dec 0 0); [lra |].
    destruct (Rlt_dec 0 1); [| lra]. now rewrite asin_1.
  - assert (Hlt : 0 < sqrt (1 - a)) by (apply sqrt_lt_R0; lra).
    destruct (Rlt_dec 0 (sqrt (1 - a))); [| lra].
    assert (Hs : sqrt a < 1).
    { rewrite <- sqrt_1. apply sqrt_lt_1; lra. }
    pose proof (sqrt_pos a).
    rewrite asin_atan by lra.
    unfold Rsqr. rewrite sqrt_sqrt by lra. reflexivity.
Qed.


Lemma haversine_formula (lat1 lon1 lat2 lon2 : R) :
  haversine lat1 lon1 lat2 lon2 =
  inr (2 * 6371 * asin (sqrt (haversine_a lat1 lon1 lat2 lon2))).
Proof.
  rewrite haversine_value.
  rewrite math_atan2_asin by apply haversine_a_bounds.
  f_equal. ring.
Qed.







Lemma haversine_nonneg (lat1 lon1 lat2 lon2 d : R) :
  haversine lat1 lon1 lat2 lon2 = inr d -> 0 <= d.
Proof.
  rewrite haversine_value. intros [= <-].
  pose proof (math_atan2_quadrant (sqrt_pos (haversine_a lat1 lon1 lat2 lon2))
                (sqrt_pos (1 - haversine_a lat1 lon1 lat2 lon2))).
  nra.
Qed.

(** ** The error monad *)

Lemma bind_inr {A B : Type} (c : exc A) (k : A -> exc B) (b : B) :
  bind c k = inr b -> exists a, c = inr a /\ k a = inr b.
Proof.
  destruct c as [e | a]; cbn; [discriminate | eauto].
Qed.

Lemma map_exc_inr {A B : Type} (f : A -> exc B) (l : list A) (out : list B) :
  map_exc f l = inr out -> Forall2 (fun a b => f a = inr b) l out.
Proof.
  revert out. induction l as [| a l IH]; cbn; intros out H.
  - injection H as <-. constructor.
  - apply bind_inr in H as (b & Hb & H).
    apply bind_inr in H as (bs & Hbs & H).
    injection H as <-. constructor; auto.
Qed.

Lemma py_get_inr (x : json) (key : string) (default v : json) :
  py_get x key default = inr v ->
  exists d, x = JObj d /\
            v = match dict_get key d with Some w => w | None => default end.
Proof.
  destruct x; cbn; try discriminate. intros [= <-]. eauto.
Qed.

(** ** Normalisation of one item *)

Lemma normalize_inv (lat lng : R) (item : json) (pl : place) :
  normalize lat lng item = inr pl ->
  exists fields lat2 lon2,
    item = JObj fields /\
    Place.name pl =
      match dict_get "name" fields with Some v => v | None => JStr NO_NAME end /\
    Place.rating pl =
      match dict_get "rating" fields with Some v => v | None => JNum 0 end /\
    Place.reviews pl =
      match dict_get "user_ratings_total" fields with
      | Some v => v | None => JNum 0 end /\
    Place.address pl =
      match dict_get "vicinity" fields with Some v => v | None => JStr "" end /\
    Place.place_id pl =
      match dict_get "place_id" fields with Some v => v | None => JStr "" end /\
    Place.lat pl =
      match reported_coordinate fields "lat" with
      | Some v => v | None => JNum 0 end /\
    Place.lng pl =
      match reported_coordinate fields "lng" with
      | Some v => v | None => JNum 0 end /\
    Place.is_open pl =
      match dict_get "opening_hours" fields with
      | Some (JObj hours) =>
          match dict_get "open_now" hours with Some v => v | None => JNull end
      | _ => JNull
      end /\
    (forall v, dict_get "opening_hours" fields = Some v ->
               v = JNull \/ exists hours, v = JObj hours) /\
    py_float (Place.lat pl) = inr lat2 /\
    py_float (Place.lng pl) = inr lon2 /\
    haversine lat lng lat2 lon2 = inr (Place.dist_km pl).
Proof.
  intros H. unfold normalize in H.
  destruct item as [ | | | | | fields]; try discriminate H.
  apply bind_inr in H as (geometry & Hgeo & H).
  apply bind_inr in H as (loc & Hloc & H).
  apply bind_inr in H as (p_lat & Hlat & H).
  apply bind_inr in H as (p_lng & Hlng & H).
  apply bind_inr in H as (opening & Hopening & H).
  apply bind_inr in H as (open_now & Hopen & H).
  apply bind_inr in H as (name & Hname & H).
  apply bind_inr in H as (rating & Hrating & H).
  apply bind_inr in H as (reviews & Hreviews & H).
  apply bind_inr in H as (address & Haddress & H).
  apply bind_inr in H as (place_id & Hid & H).
  apply bind_inr in H as (lat2 & Hlat2 & H).
  apply bind_inr in H as (lon2 & Hlon2 & H).
  apply bind_inr in H as (d & Hd & H).
  injection H as <-. cbn [Place.name Place.rating Place.reviews Place.address
    Place.place_id Place.lat Place.lng Place.is_open Place.dist_km].
  exists fields, lat2, lon2.
  cbn [py_get ret] in Hgeo, Hopening, Hname, Hrating, Hreviews, Haddress, Hid.
  injection Hgeo as <-. injection Hopening as <-. injection Hname as <-.
  injection Hrating as <-. injection Hreviews as <-.
  injection Haddress as <-. injection Hid as <-.
  apply py_get_inr in Hloc as (g & Hg & ->).
  apply py_get_inr in Hlat as (l & Hl & ->).
  apply py_get_inr in Hlng as (l' & Hl' & ->).
  rewrite Hl in Hl'. injection Hl' as <-.
  assert (Hcoord : forall c, reported_coordinate fields c = dict_get c l).
  { intros c. unfold reported_coordinate.
    destruct (dict_get "geometry" fields) as [v |].
    - subst v. destruct (dict_get "location" g) as [w |].
      + now subst w.
      + now injection Hl as <-.
    - injection Hg as <-. cbn in Hl. now injection Hl as <-. }
  rewrite !Hcoord.
  repeat (split; [reflexivity |]).
  split; [| split; [| auto]].
  - destruct (dict_get "opening_hours" fields) as [v |]; cbn in Hopen.
    + destruct v; try discriminate Hopen; cbn in Hopen; now injection Hopen as <-.
    + now injection Hopen as <-.
  - intros v Hv. rewrite Hv in Hopen.
    destruct v; try discriminate Hopen; eauto.
Qed.

(** ** [search_places] *)

Section AdapterFacts.

Variable GOOGLE_API_KEY : string.
Variable net : request -> transport.
Variables lat lng : R.
Variable keyword : string.
Variable radius : Z.

Let req := build_request GOOGLE_API_KEY lat lng keyword radius.
Let out := search_places GOOGLE_API_KEY net lat lng keyword radius.
Let try := search_try GOOGLE_API_KEY net lat lng keyword radius.

Lemma search_places_raised (e : py_exception) :
  try = inl e -> out = handler e.
Proof. unfold out, search_places. fold try. now intros ->. Qed.

Lemma handler_failed (e : py_exception) :
  failed (handler e) /\ returned (handler e) = [].
Proof. unfold failed. destruct e; cbn; split; congruence. Qed.

Lemma search_try_get_raises (e : py_exception) :
  net req = GetRaises e -> try = inl e.
Proof. unfold try, search_try. fold req. now intros ->. Qed.

Lemma search_try_http_error (r : response) :
  net req = GetReturns r -> raise_for_status r <> inr tt ->
  try = inl (RequestException "HTTPError").
Proof.
  unfold try, search_try. fold req. intros -> H. cbn [requests_get bind ret].
  unfold raise_for_status in *.
  destruct ((400 <=? status_code r)%Z && (status_code r <? 600)%Z);
    [reflexivity | now elim H].
Qed.

Lemma search_try_bad_json (r : response) :
  net req = GetReturns r -> raise_for_status r = inr tt -> body r = None ->
  try = inl (RequestException "JSONDecodeError").
Proof.
  unfold try, search_try. fold req. intros -> Hs Hb. cbn [requests_get bind ret].
  rewrite Hs. cbn [bind]. unfold resp_json. now rewrite Hb.
Qed.

(** The try body once a JSON object has been received. *)
Lemma search_try_object (r : response) (d : list (string * json)) :
  net req = GetReturns r -> raise_for_status r = inr tt ->
  body r = Some (JObj d) ->
  try =
  if negb (accepted_status (provider_status d))
  then inr ([ApiError (provider_message d)], [])
  else (listed <- py_get (JObj d) "results" (JList []) ;;
        items <- py_iter listed ;;
        results <- map_exc (normalize lat lng) items ;;
        ret ([], results)).
Proof.
  unfold try, search_try. fold req. intros -> Hs Hb. cbn [requests_get bind ret].
  rewrite Hs. cbn [bind]. unfold resp_json. rewrite Hb. cbn [bind ret py_get].
  fold (provider_status d). destruct (accepted_status (provider_status d));
    cbn [negb]; [reflexivity |].
  unfold provider_message. reflexivity.
Qed.

Lemma search_try_provider_error (r : response) (d : list (string * json)) :
  net req = GetReturns r -> raise_for_status r = inr tt ->
  body r = Some (JObj d) -> accepted_status (provider_status d) = false ->
  out = ([ApiError (provider_message d)], []).
Proof.
  intros Hn Hs Hb Ha. unfold out, search_places. fold try.
  rewrite (search_try_object Hn Hs Hb), Ha. reflexivity.
Qed.

(** Every way the try body can end normally. *)
Lemma search_try_inr (res : list ui_error * list place) :
  try = inr res ->
  (exists m, res = ([ApiError m], [])) \/
  (exists results,
      res = ([], results) /\
      Forall2 (fun item pl => normalize lat lng item = inr pl)
              (listed_items (net req)) results).
Proof.
  unfold try, search_try. fold req. intros H.
  apply bind_inr in H as (r & Hr & H).
  apply bind_inr in H as ([] & Hs & H).
  apply bind_inr in H as (data & Hdata & H).
  apply bind_inr in H as (st & Hst & H).
  destruct (negb (accepted_status st)).
  - apply bind_inr in H as (fb & _ & H).
    apply bind_inr in H as (m & _ & H).
    injection H as <-. eauto.
  - apply bind_inr in H as (listed & Hlisted & H).
    apply bind_inr in H as (items & Hitems & H).
    apply bind_inr in H as (results & Hres & H).
    injection H as <-. right. exists results. split; [reflexivity |].
    unfold listed_items. destruct (net req) as [e | r']; [discriminate |].
    injection Hr as ->. unfold resp_json in Hdata.
    destruct (body r) as [data' |]; [| discriminate].
    injection Hdata as ->. rewrite Hlisted, Hitems.
    now apply map_exc_inr.
Qed.

Lemma search_places_cases :
  (failed out /\ returned out = []) \/
  (shown out = [] /\
   Forall2 (fun item pl => normalize lat lng item = inr pl)
           (listed_items (net req)) (returned out)).
Proof.
  unfold out, search_places. fold try.
  destruct try as [e | res] eqn:H.
  - left. apply handler_failed.
  - apply search_try_inr in H as [(m & ->) | (results & -> & H)].
    + left. unfold failed. cbn. split; congruence.
    + right. cbn. auto.
Qed.

Lemma search_places_returned_inv (pl : place) :
  In pl (returned out) ->
  exists item, In item (listed_items (net req)) /\
               normalize lat lng item = inr pl.
Proof.
  intros Hin. destruct search_places_cases as [[_ He] | [_ H]].
  - rewrite He in Hin. contradiction.
  - clear -H Hin. induction H as [| item p items pls Hip _ IH].
    + contradiction.
    + destruct Hin as [-> | Hin].
      * exists item. split; [now left | assumption].
      * destruct (IH Hin) as (i & Hi & Hn). exists i. split; [now right | assumption].
Qed.

End AdapterFacts.

(** ** Evaluation on the sample data *)

Lemma normalize_item_full (lat lng : R) :
  normalize lat lng (JObj item_full) = inr (place_full lat lng).
Proof.
  unfold normalize, item_full. cbn -[haversine].
  now rewrite haversine_formula.
Qed.

Lemma normalize_empty_item (lat lng : R) :
  normalize lat lng (JObj []) = inr (place_default lat lng).
Proof.
  unfold normalize. cbn -[haversine].
  now rewrite haversine_formula.
Qed.

Lemma search_places_answer_ok (k : string) (lat lng : R) (kw : string) (rad : Z) :
  search_places k (replies answer_ok) lat lng kw rad =
  ([], [place_full lat lng; place_default lat lng]).
Proof.
  unfold search_places, search_try, replies, answer_ok.
  cbn -[normalize].
  rewrite normalize_item_full, normalize_empty_item. reflexivity.
Qed.

(** ** Failure modes of [search_places] *)

Section AdapterClaims.

Variable GOOGLE_API_KEY : string.
Variable net : request -> transport.
Variables lat lng : R.
Variable keyword : string.
Variable radius : Z.

Let req := build_request GOOGLE_API_KEY lat lng keyword radius.
Let out := search_places GOOGLE_API_KEY net lat lng keyword radius.
Let try := search_try GOOGLE_API_KEY net lat lng keyword radius.

(** C1, as the code has it.  Each failure mode shows its own message and
    the call returns the empty list: a provider status other than "OK" and
    "ZERO_RESULTS" shows the provider's [error_message], or its status when
    there is no message; a timeout shows the timeout message; any other
    request exception (an HTTP error status and an invalid JSON body
    included) shows the network message with its cause; any other exception
    shows the unexpected-error message with its cause. *)
Theorem search_places_failure_messages :
  (forall r d,
      net req = GetReturns r -> raise_for_status r = inr tt ->
      body r = Some (JObj d) -> accepted_status (provider_status d) = false ->
      out = ([ApiError (provider_message d)], []) /\
      (dict_get "error_message" d = None ->
       forall s, dict_get "status" d = Some s -> provider_message d = s)) /\
  (net req = GetRaises Timeout -> out = ([TimeoutMessage], [])) /\
  (forall cause,
      net req = GetRaises (RequestException cause) ->
      out = ([NetworkError (RequestException cause)], [])) /\
  (forall r,
      net req = GetReturns r ->
      raise_for_status r <> inr tt \/ (raise_for_status r = inr tt /\ body r = None) ->
      exists cause, out = ([NetworkError (RequestException cause)], [])) /\
  (forall e,
      try = inl e -> e <> Timeout -> (forall cause, e <> RequestException cause) ->
      out = ([UnexpectedError e], [])).
Proof.
  repeat split.
  - unfold out. eapply search_try_provider_error; eassumption.
  - intros Hm s Hs. unfold provider_message. now rewrite Hm, Hs.
  - intros H. apply search_try_get_raises in H.
    unfold out. now erewrite search_places_raised by exact H.
  - intros cause H. apply search_try_get_raises in H.
    unfold out. now erewrite search_places_raised by exact H.
  - intros r Hn [Hs | [Hs Hb]].
    + exists "HTTPError"%string. unfold out.
      erewrite search_places_raised
        by (eapply search_try_http_error; eassumption).
      reflexivity.
    + exists "JSONDecodeError"%string. unfold out.
      erewrite search_places_raised
        by (eapply search_try_bad_json; eassumption).
      reflexivity.
  - intros e H Ht Hr. unfold out. erewrite search_places_raised by exact H.
    destruct e; cbn; try reflexivity.
    + now elim Ht.
    + now elim (Hr cause).
Qed.

(** C10.  Every failure path of [search_places] returns the empty list: an
    exception raised anywhere in the try body (timeout, transport error or
    any other), and a provider status other than "OK" and "ZERO_RESULTS".
    A failed call returns the very value a successful search without
    results returns. *)
Theorem search_places_failure_returns_empty :
  (forall e, try = inl e -> failed out /\ returned out = []) /\
  (forall r d,
      net req = GetReturns r -> raise_for_status r = inr tt ->
      body r = Some (JObj d) -> accepted_status (provider_status d) = false ->
      failed out /\ returned out = []) /\
  (failed out -> returned out = []) /\
  (failed out ->
   let ok := search_places GOOGLE_API_KEY (replies answer_zero_results)
                           lat lng keyword radius in
   ~ failed ok /\ returned ok = returned out).
Proof.
  assert (Hfail : failed out -> returned out = []).
  { intros Hf. destruct (search_places_cases GOOGLE_API_KEY net lat lng keyword radius)
      as [[_ H] | [H _]]; [exact H | now elim Hf]. }
  split; [| split; [| split]].
  - intros e H. unfold out. erewrite search_places_raised by exact H.
    apply handler_failed.
  - intros r d Hn Hs Hb Ha. unfold out in *.
    erewrite search_try_provider_error by eassumption.
    unfold failed. cbn. split; congruence.
  - exact Hfail.
  - intros Hf. cbn zeta. rewrite (Hfail Hf).
    unfold failed. cbn. split; congruence.
Qed.

(** C5.  A "ZERO_RESULTS" answer is a success: no error message is shown
    and the empty list is returned. *)
Theorem zero_results_is_success (r : response) (d : list (string * json)) :
  net req = GetReturns r -> raise_for_status r = inr tt ->
  body r = Some (JObj d) ->
  dict_get "status" d = Some (JStr "ZERO_RESULTS") ->
  dict_get "results" d = None \/ dict_get "results" d = Some (JList []) ->
  out = ([], []) /\ ~ failed out.
Proof.
  intros Hn Hs Hb Hst Hres.
  assert (Hout : out = ([], [])).
  { unfold out, search_places.
    erewrite search_try_object by eassumption.
    unfold provider_status. rewrite Hst. cbn [accepted_status is_str].
    cbn. destruct Hres as [-> | ->]; reflexivity. }
  split; [exact Hout |]. rewrite Hout. unfold failed. cbn. congruence.
Qed.

End AdapterClaims.

(** ** Normalised records *)

Lemma status_of_is_open (pl : place) (fields : list (string * json)) :
  Place.is_open pl =
    match dict_get "opening_hours" fields with
    | Some (JObj hours) =>
        match dict_get "open_now" hours with Some v => v | None => JNull end
    | _ => JNull
    end ->
  (forall b : bool,
      status pl = (if b then OPEN else CLOSED) <-> reports_open_now fields b) /\
  (omits_open_now fields -> status pl = UNKNOWN).
Proof.
  intros H. unfold status, reports_open_now, omits_open_now. rewrite H. clear H.
  destruct (dict_get "opening_hours" fields) as [v |].
  - destruct v as [ | b' | x | s | items | hours].
    all: try (split; [intros [|]; (split; [discriminate | intros (h & [=] & _)])
                     | reflexivity]).
    split.
    + intros b. split.
      * intros Hst. exists hours. split; [reflexivity |].
        destruct (dict_get "open_now" hours) as [w |];
          [| destruct b; discriminate Hst].
        destruct w as [ | [|] | | | | ]; destruct b;
          try discriminate Hst; reflexivity.
      * intros (h & [= <-] & ->). now destruct b.
    + intros [[=] | (h & [= <-] & ->)]. reflexivity.
  - split.
    + intros [|]; (split; [discriminate | intros (h & [=] & _)]).
    + reflexivity.
Qed.

Section RecordClaims.

Variable GOOGLE_API_KEY : string.
Variable net : request -> transport.
Variables lat lng : R.
Variable keyword : string.
Variable radius : Z.

Let req := build_request GOOGLE_API_KEY lat lng keyword radius.
Let out := search_places GOOGLE_API_KEY net lat lng keyword radius.

(** C7.  When the search succeeds the returned list holds, in order, the
    normalisation of every item of the response; a field the item lacks
    takes its default (placeholder name, rating 0, review count 0,
    location (0, 0), empty address, empty place id), and the status shown
    is OPEN exactly when the item has [opening_hours.open_now] true, CLOSED
    exactly when it has it false, and UNKNOWN when it is omitted. *)
Theorem normalized_defaults_and_open_status :
  shown out = [] ->
  Forall2
    (fun item pl =>
       exists fields,
         item = JObj fields /\
         normalize lat lng item = inr pl /\
         (dict_get "name" fields = None -> Place.name pl = JStr NO_NAME) /\
         (dict_get "rating" fields = None -> Place.rating pl = JNum 0) /\
         (dict_get "user_ratings_total" fields = None ->
          Place.reviews pl = JNum 0) /\
         (dict_get "geometry" fields = None ->
          Place.lat pl = JNum 0 /\ Place.lng pl = JNum 0) /\
         (reported_coordinate fields "lat" = None -> Place.lat pl = JNum 0) /\
         (reported_coordinate fields "lng" = None -> Place.lng pl = JNum 0) /\
         (dict_get "vicinity" fields = None -> Place.address pl = JStr "") /\
         (dict_get "place_id" fields = None -> Place.place_id pl = JStr "") /\
         (status pl = OPEN <-> reports_open_now fields true) /\
         (status pl = CLOSED <-> reports_open_now fields false) /\
         (omits_open_now fields -> status pl = UNKNOWN))
    (listed_items (net req)) (returned out).
Proof.
  intros Hshown.
  destruct (search_places_cases GOOGLE_API_KEY net lat lng keyword radius)
    as [[Hf _] | [_ Hall]]; [now elim Hf |].
  eapply Forall2_impl; [| exact Hall].
  intros item pl Hnorm.
  destruct (normalize_inv _ _ _ Hnorm)
    as (fields & lat2 & lon2 & -> & Hname & Hrating & Hreviews & Haddr & Hid
        & Hlat & Hlng & Hopen & _).
  exists fields.
  destruct (status_of_is_open pl fields Hopen) as [Hrep Homit].
  split; [reflexivity |]. split; [exact Hnorm |].
  split; [intros E; now rewrite Hname, E |].
  split; [intros E; now rewrite Hrating, E |].
  split; [intros E; now rewrite Hreviews, E |].
  split; [intros E; rewrite Hlat, Hlng; unfold reported_coordinate;
          now rewrite E |].
  split; [intros E; now rewrite Hlat, E |].
  split; [intros E; now rewrite Hlng, E |].
  split; [intros E; now rewrite Haddr, E |].
  split; [intros E; now rewrite Hid, E |].
  split; [exact (Hrep true) |].
  split; [exact (Hrep false) | exact Homit].
Qed.

(** C8.  The distance of every returned record is the value [haversine]
    computes from the origin of the query and the location of the record
    (the location the provider gives, or the default 0), and it is not
    negative. *)
Theorem dist_km_recomputed_nonnegative (pl : place) :
  In pl (returned out) ->
  0 <= Place.dist_km pl /\
  (exists lat2 lon2,
      py_float (Place.lat pl) = inr lat2 /\
      py_float (Place.lng pl) = inr lon2 /\
      haversine lat lng lat2 lon2 = inr (Place.dist_km pl)) /\
  (exists fields,
      In (JObj fields) (listed_items (net req)) /\
      Place.lat pl = match reported_coordinate fields "lat" with
                     | Some v => v | None => JNum 0 end /\
      Place.lng pl = match reported_coordinate fields "lng" with
                     | Some v => v | None => JNum 0 end).
Proof.
  intros Hin.
  apply search_places_returned_inv in Hin as (item & Hitem & Hnorm).
  destruct (normalize_inv _ _ _ Hnorm)
    as (fields & lat2 & lon2 & -> & _ & _ & _ & _ & _
        & Hlat & Hlng & _ & _ & Hf1 & Hf2 & Hd).
  split; [exact (haversine_nonneg _ _ _ _ Hd) |].
  split; [exists lat2, lon2; auto | exists fields; auto].
Qed.

End RecordClaims.

(** ** The theorems above at the sample data *)

(** C1 as stated fails: on an "OVER_QUERY_LIMIT" answer the call returns a
    list, the same empty list a successful "ZERO_RESULTS" search returns,
    and the message shown carries the provider's message without its
    status. *)
Lemma provider_error_returns_the_empty_list :
  returned (search_places "key" (replies answer_over_query_limit)
                          10.3119 123.8916 "cafe" 3000) =
  returned (search_places "key" (replies answer_zero_results)
                          10.3119 123.8916 "cafe" 3000) /\
  shown (search_places "key" (replies answer_zero_results)
                       10.3119 123.8916 "cafe" 3000) = [] /\
  search_places "key" (replies answer_over_query_limit)
                10.3119 123.8916 "cafe" 3000 =
  ([ApiError (JStr "You have exceeded your daily request quota.")], []).
Proof. repeat split. Qed.

Lemma search_places_failure_messages_witness :
  search_places "key" times_out 10.3119 123.8916 "cafe" 3000 =
  ([TimeoutMessage], []) /\
  search_places "key" (replies answer_over_query_limit)
                10.3119 123.8916 "cafe" 3000 =
  ([ApiError (JStr "You have exceeded your daily request quota.")], []).
Proof.
  split.
  - apply (proj1 (proj2 (search_places_failure_messages
                           "key" times_out 10.3119 123.8916 "cafe" 3000))).
    reflexivity.
  - apply (proj1 (proj1 (search_places_failure_messages
                           "key" (replies answer_over_query_limit)
                           10.3119 123.8916 "cafe" 3000)
                    {| status_code := 200;
                       body := Some answer_over_query_limit |}
                    _ eq_refl eq_refl eq_refl eq_refl)).
Defined.

Lemma search_places_failure_returns_empty_witness :
  returned (search_places "key" times_out 10.3119 123.8916 "cafe" 3000) = [].
Proof.
  apply (proj1 (proj2 (proj2 (search_places_failure_returns_empty
                                "key" times_out 10.3119 123.8916 "cafe" 3000)))).
  unfold failed. cbn. discriminate.
Defined.

Lemma zero_results_is_success_witness :
  search_places "key" (replies answer_zero_results)
                10.3119 123.8916 "cafe" 3000 = ([], []).
Proof.
  apply (proj1 (@zero_results_is_success
                  "key" (replies answer_zero_results)
                  10.3119 123.8916 "cafe" 3000
                  {| status_code := 200; body := Some answer_zero_results |}
                  _ eq_refl eq_refl eq_refl eq_refl
                  (or_intror eq_refl))).
Defined.

Lemma normalized_defaults_and_open_status_witness :
  Forall2 (fun item pl => normalize 10.3119 123.8916 item = inr pl)
          [JObj item_full; JObj []]
          (returned (search_places "key" (replies answer_ok)
                                   10.3119 123.8916 "cafe" 3000)).
Proof.
  assert (Hshown : shown (search_places "key" (replies answer_ok)
                                        10.3119 123.8916 "cafe" 3000) = [])
    by now rewrite search_places_answer_ok.
  eapply Forall2_impl;
    [| exact (@normalized_defaults_and_open_status
                "key" (replies answer_ok) 10.3119 123.8916 "cafe" 3000 Hshown)].
  intros item pl (fields & _ & Hnorm & _). exact Hnorm.
Defined.

Lemma dist_km_recomputed_nonnegative_witness :
  0 <= Place.dist_km (place_full 10.3119 123.8916) /\
  0 <= Place.dist_km (place_default 10.3119 123.8916).
Proof.
  split.
  - apply (@dist_km_recomputed_nonnegative
             "key" (replies answer_ok) 10.3119 123.8916 "cafe" 3000).
    rewrite search_places_answer_ok. cbn. auto.
  - apply (@dist_km_recomputed_nonnegative
             "key" (replies answer_ok) 10.3119 123.8916 "cafe" 3000).
    rewrite search_places_answer_ok. cbn. auto.
Defined.

(** ** Filter, sort, truncate *)

Lemma filter_exc_inr {A : Type} (f : A -> exc bool) (l out : list A) :
  filter_exc f l = inr out ->
  out = filter (fun a => match f a with inr true => true | _ => false end) l.
Proof.
  revert out. induction l as [| a l IH]; cbn; intros out H.
  - now injection H as <-.
  - apply bind_inr in H as (keep & Hk & H).
    apply bind_inr in H as (rest & Hr & H).
    injection H as <-. rewrite Hk, (IH rest Hr). now destruct keep.
Qed.

Lemma rating_ok_passes (min_rating : R) (p : place) :
  match rating_ok min_rating p with inr true => true | _ => false end =
  passes min_rating p.
Proof.
  unfold rating_ok, passes.
  destruct (py_float (Place.rating p)) as [e | r]; cbn; [reflexivity |].
  now destruct (Rle_dec min_rating r).
Qed.

Lemma filtered_inr (min_rating : R) (raw kept : list place) :
  filtered min_rating raw = inr kept -> kept = filter (passes min_rating) raw.
Proof.
  intros H. apply filter_exc_inr in H. rewrite H.
  apply filter_ext. intros p. apply rating_ok_passes.
Qed.

Lemma filtered_total (min_rating : R) (raw : list place) :
  Forall (fun p => exists r, py_float (Place.rating p) = inr r) raw ->
  exists kept, filtered min_rating raw = inr kept.
Proof.
  unfold filtered. induction 1 as [| p raw (r & Hr) _ (kept & IH)]; cbn.
  - now exists [].
  - unfold rating_ok at 1. rewrite Hr, IH. cbn. eauto.
Qed.

Lemma passes_spec (min_rating : R) (p : place) :
  passes min_rating p = true ->
  exists r, py_float (Place.rating p) = inr r /\ min_rating <= r.
Proof.
  unfold passes. destruct (py_float (Place.rating p)) as [e | r]; [discriminate |].
  destruct (Rle_dec min_rating r); [eauto | discriminate].
Qed.

Lemma insert_by_dist_perm (x : place) (l : list place) :
  Permutation (insert_by_dist x l) (x :: l).
Proof.
  induction l as [| y l IH]; cbn; [reflexivity |].
  destruct (Rlt_dec (Place.dist_km y) (Place.dist_km x)); [| reflexivity].
  rewrite IH. apply perm_swap.
Qed.

Lemma sort_by_dist_perm (l : list place) : Permutation (sort_by_dist l) l.
Proof.
  induction l as [| x l IH]; cbn; [reflexivity |].
  rewrite insert_by_dist_perm. now constructor.
Qed.

Lemma insert_by_dist_sorted (x : place) (l : list place) :
  StronglySorted by_dist l -> StronglySorted by_dist (insert_by_dist x l).
Proof.
  induction 1 as [| y l Hs IH Hy]; cbn.
  - repeat constructor.
  - destruct (Rlt_dec (Place.dist_km y) (Place.dist_km x)) as [Hlt | Hge].
    + constructor; [assumption |].
      apply (Permutation_Forall (Permutation_sym (insert_by_dist_perm x l))).
      constructor; [unfold by_dist; lra | assumption].
    + assert (Hxy : by_dist x y) by (unfold by_dist; lra).
      constructor; [now constructor |].
      constructor; [assumption |].
      eapply Forall_impl; [| exact Hy]. unfold by_dist in *. intros; lra.
Qed.

Lemma sort_by_dist_sorted (l : list place) : StronglySorted by_dist (sort_by_dist l).
Proof.
  induction l as [| x l IH]; cbn; [constructor |].
  now apply insert_by_dist_sorted.
Qed.

Lemma filter_insert_by_dist (d : R) (x : place) (l : list place) :
  filter (dist_is d) (insert_by_dist x l) = filter (dist_is d) (x :: l).
Proof.
  induction l as [| y l IH]; [reflexivity |].
  cbn [insert_by_dist].
  destruct (Rlt_dec (Place.dist_km y) (Place.dist_km x)) as [Hlt | Hge];
    [| reflexivity].
  cbn [filter] in *. rewrite IH. unfold dist_is.
  destruct (Req_dec_T (Place.dist_km x) d), (Req_dec_T (Place.dist_km y) d);
    try reflexivity.
  lra.
Qed.

Lemma sort_by_dist_stable (d : R) (l : list place) :
  filter (dist_is d) (sort_by_dist l) = filter (dist_is d) l.
Proof.
  induction l as [| x l IH]; [reflexivity |].
  cbn [sort_by_dist fold_right]. fold (sort_by_dist l).
  rewrite filter_insert_by_dist. cbn [filter]. now rewrite IH.
Qed.

Lemma In_firstn {A : Type} (x : A) (n : nat) (l : list A) :
  In x (firstn n l) -> In x l.
Proof.
  revert l. induction n as [| n IH]; intros [| a l]; cbn; try contradiction.
  intros [-> | H]; [now left | right; now apply IH].
Qed.

Lemma StronglySorted_firstn {A : Type} (le : A -> A -> Prop) (n : nat) (l : list A) :
  StronglySorted le l -> StronglySorted le (firstn n l).
Proof.
  intros H. revert n. induction H as [| a l Hs IH Ha]; intros [| n]; cbn;
    try constructor.
  - apply IH.
  - rewrite Forall_forall in *. intros b Hb. apply Ha.
    now apply In_firstn in Hb.
Qed.

Lemma filter_firstn_prefix {A : Type} (f : A -> bool) (n : nat) (l : list A) :
  filter f (firstn n l) ++ filter f (skipn n l) = filter f l.
Proof. now rewrite <- filter_app, firstn_skipn. Qed.

Lemma recommend_sample :
  recommend 4 10 sample_raw = inr [rated 4 1; rated 4.5 3].
Proof.
  unfold recommend, filtered, sample_raw, rating_ok, rated. cbn.
  real_cases. cbn. real_cases. reflexivity.
Qed.

(** C2.  The pipeline runs on every list whose ratings are numbers and
    returns at most [top_n] records, all of them records of the input with
    a rating of at least [min_rating], in non-decreasing order of distance;
    records at the same distance keep the order they have in the input.
    [top10] is the pipeline at 4.0 and 10. *)
Theorem recommend_bounded_rated_sorted_stable
    (min_rating : R) (top_n : nat) (raw : list place) :
  (Forall (fun p => exists r, py_float (Place.rating p) = inr r) raw ->
   exists top, recommend min_rating top_n raw = inr top) /\
  (forall top,
      recommend min_rating top_n raw = inr top ->
      (length top <= top_n)%nat /\
      Forall (fun p => In p raw /\
                       exists r, py_float (Place.rating p) = inr r /\
                                 min_rating <= r) top /\
      StronglySorted by_dist top /\
      (forall d, exists rest,
          filter (dist_is d) top ++ rest =
          filter (dist_is d) (filter (passes min_rating) raw))) /\
  top10 raw = recommend 4 10 raw.
Proof.
  split; [| split; [| reflexivity]].
  - intros Hnum. destruct (filtered_total min_rating Hnum) as (kept & Hk).
    unfold recommend. rewrite Hk. cbn. eauto.
  - intros top H. unfold recommend in H.
    apply bind_inr in H as (kept & Hk & H). injection H as <-.
    apply filtered_inr in Hk. subst kept.
    split; [apply firstn_le_length |].
    split; [| split].
    + rewrite Forall_forall. intros p Hp. apply In_firstn in Hp.
      apply (Permutation_in _ (sort_by_dist_perm _)) in Hp.
      apply filter_In in Hp as [Hin Hpass]. split; [exact Hin |].
      now apply passes_spec.
    + apply StronglySorted_firstn, sort_by_dist_sorted.
    + intros d.
      exists (filter (dist_is d)
                     (skipn top_n (sort_by_dist (filter (passes min_rating) raw)))).
      now rewrite filter_firstn_prefix, sort_by_dist_stable.
Qed.

Lemma recommend_bounded_rated_sorted_stable_witness :
  (length [rated 4 1; rated 4.5 3] <= 10)%nat /\
  StronglySorted by_dist [rated 4 1; rated 4.5 3].
Proof.
  destruct (proj1 (proj2 (recommend_bounded_rated_sorted_stable 4 10 sample_raw))
              [rated 4 1; rated 4.5 3] recommend_sample)
    as (Hlen & _ & Hsorted & _).
  exact (conj Hlen Hsorted).
Defined.

(** ** The Grab fare estimate and the page *)

Lemma grab_est_Rmax (avg : R) : grab_est avg = Rmax 60 (40 + avg * 15).
Proof.
  unfold grab_est, py_max, Rmax.
  destruct (Rlt_dec 60 (40 + avg * 15)), (Rle_dec 60 (40 + avg * 15)); lra.
Qed.

Lemma grab_est_at_least_base (avg : R) : 60 <= grab_est avg.
Proof. rewrite grab_est_Rmax. apply Rmax_l. Qed.

Lemma fold_left_dist (l : list place) (acc : R) :
  fold_left (fun a p => a + Place.dist_km p) l acc =
  acc + fold_right Rplus 0 (map Place.dist_km l).
Proof.
  revert acc. induction l as [| p l IH]; intros acc; cbn; [ring |].
  rewrite IH. ring.
Qed.

Lemma sum_dist_fold_right (l : list place) :
  sum_dist l = fold_right Rplus 0 (map Place.dist_km l).
Proof. unfold sum_dist. rewrite fold_left_dist. ring. Qed.

Lemma format_reviews_numbers (top : list place) :
  Forall (fun p => is_number (Place.reviews p) = true) top ->
  exists done,
    map_exc (fun p => format_thousands (Place.reviews p)) top = inr done.
Proof.
  induction 1 as [| p top Hp _ (done & IH)]; cbn [map_exc]; [now exists [] |].
  unfold format_thousands at 1.
  destruct (Place.reviews p); try discriminate Hp; rewrite IH; cbn; eauto.
Qed.

Lemma main_results_inv (raw : list place) (r : results_page) :
  main raw = inr (Results r) ->
  exists top,
    top10 raw = inr top /\ top <> [] /\ raw <> [] /\
    r = {| cards := map (fun p => (p, status p)) top;
           found := length top;
           total := length raw;
           grab := Some (sum_dist top / INR (length top),
                         grab_est (sum_dist top / INR (length top))) |}.
Proof.
  unfold main. destruct raw as [| p0 raw]; [discriminate |].
  intros H. apply bind_inr in H as (top & Htop & H).
  destruct top as [| p top]; [discriminate |].
  apply bind_inr in H as (done & _ & H).
  cbn in H. injection H as <-.
  exists (p :: top). repeat split; try discriminate. exact Htop.
Qed.

(** The page the script builds when there is something to show and the
    review counts can be formatted. *)
Lemma main_page (raw top : list place) :
  top10 raw = inr top -> top <> [] ->
  Forall (fun p => is_number (Place.reviews p) = true) top ->
  main raw =
  inr (Results
         {| cards := map (fun p => (p, status p)) top;
            found := length top;
            total := length raw;
            grab := Some (sum_dist top / INR (length top),
                          grab_est (sum_dist top / INR (length top))) |}).
Proof.
  intros Htop Hne Hrev. unfold main.
  destruct raw as [| p0 raw].
  { cbn in Htop. injection Htop as <-. now elim Hne. }
  rewrite Htop. cbn [bind].
  destruct top as [| p top]; [now elim Hne |].
  destruct (format_reviews_numbers Hrev) as (done & ->).
  reflexivity.
Qed.

Lemma main_without_top (raw : list place) :
  top10 raw = inr [] -> main raw = inr NoResults \/ main raw = inr NoRatedPlaces.
Proof.
  intros H. unfold main. destruct raw; [now left |]. rewrite H. now right.
Qed.

(** C3.  The fare estimate is [max(60, 40 + avg * 15)], where [avg] is the
    sum of the distances of the records shown divided by their number; it
    is 60 for an average of 0 km and 190 for an average of 10 km.  The
    script computes it whenever it has records to show (and the review
    counts of the cards can be formatted), and a result page never carries
    another estimate. *)
Theorem grab_est_linear_tariff :
  (forall avg, grab_est avg = Rmax 60 (40 + avg * 15)) /\
  grab_est 0 = 60 /\
  grab_est 10 = 190 /\
  (forall raw top,
      top10 raw = inr top -> top <> [] ->
      Forall (fun p => is_number (Place.reviews p) = true) top ->
      let avg := sum_dist top / INR (length top) in
      main raw =
      inr (Results
             {| cards := map (fun p => (p, status p)) top;
                found := length top;
                total := length raw;
                grab := Some (avg, Rmax 60 (40 + avg * 15)) |})) /\
  (forall raw r,
      main raw = inr (Results r) ->
      exists top avg,
        top10 raw = inr top /\
        cards r = map (fun p => (p, status p)) top /\
        avg = fold_right Rplus 0 (map Place.dist_km top) / INR (length top) /\
        grab r = Some (avg, grab_est avg)).
Proof.
  split; [exact grab_est_Rmax |].
  split; [rewrite grab_est_Rmax; unfold Rmax; real_cases |].
  split; [rewrite grab_est_Rmax; unfold Rmax; real_cases |].
  split.
  - intros raw top Htop Hne Hrev avg. rewrite <- grab_est_Rmax.
    now apply main_page.
  - intros raw r H. apply main_results_inv in H as (top & Htop & _ & _ & ->).
    exists top, (sum_dist top / INR (length top)).
    split; [exact Htop |]. split; [reflexivity |].
    split; [now rewrite sum_dist_fold_right | reflexivity].
Qed.

Lemma top10_one_far_place : top10 [rated 4.5 10] = inr [rated 4.5 10].
Proof.
  unfold top10, recommend, filtered, rating_ok, rated, MIN_RATING. cbn.
  real_cases. reflexivity.
Qed.

Lemma main_one_far_place :
  main [rated 4.5 10] =
  inr (Results {| cards := [(rated 4.5 10, UNKNOWN)];
                  found := 1; total := 1;
                  grab := Some ((0 + 10) / 1, grab_est ((0 + 10) / 1)) |}).
Proof.
  apply (@main_page _ _ top10_one_far_place); [discriminate |].
  repeat constructor.
Qed.

Lemma grab_est_linear_tariff_witness :
  exists r,
    main [rated 4.5 10] = inr (Results r) /\
    cards r = [(rated 4.5 10, UNKNOWN)] /\
    grab r = Some (sum_dist [rated 4.5 10] / INR 1,
                   Rmax 60 (40 + sum_dist [rated 4.5 10] / INR 1 * 15)) /\
    sum_dist [rated 4.5 10] / INR 1 = 10 /\
    Rmax 60 (40 + 10 * 15) = 190.
Proof.
  eexists. split.
  - apply (proj1 (proj2 (proj2 (proj2 grab_est_linear_tariff)))
             [rated 4.5 10] [rated 4.5 10] top10_one_far_place).
    + discriminate.
    + repeat constructor.
  - cbn [cards grab length]. split; [reflexivity |]. split; [reflexivity |].
    split.
    + unfold sum_dist, rated. cbn. field.
    + unfold Rmax. real_cases.
Defined.

(** C4 as stated fails: on the empty list the script stops with the
    "no results" warning and produces no result page, hence no average
    distance and no fare estimate of 60. *)
Lemma empty_input_has_no_estimate :
  main [] = inr NoResults /\
  ~ (exists r, main [] = inr (Results r) /\
               cards r = [] /\ grab r = Some (0, 60)).
Proof.
  split; [reflexivity |]. intros (r & H & _). discriminate H.
Qed.

(** C4, as the code has it.  On the empty list the filtered, sorted and
    truncated list is empty and the script stops with the "no results"
    warning.  Whenever the truncated list is empty the script stops before
    the summary; an average distance and a fare estimate exist only on a
    result page, whose list is not empty, and the estimate is then at
    least the base fare 60. *)
Theorem empty_input_stops_without_estimate :
  top10 [] = inr [] /\
  main [] = inr NoResults /\
  (forall raw,
      top10 raw = inr [] ->
      main raw = inr NoResults \/ main raw = inr NoRatedPlaces) /\
  (forall raw r,
      main raw = inr (Results r) ->
      cards r <> [] /\
      exists avg, grab r = Some (avg, grab_est avg) /\ 60 <= grab_est avg).
Proof.
  split; [reflexivity |]. split; [reflexivity |].
  split; [exact main_without_top |].
  intros raw r H. apply main_results_inv in H as (top & _ & Hne & _ & ->).
  cbn. split.
  - destruct top; [now elim Hne | discriminate].
  - eexists. split; [reflexivity | apply grab_est_at_least_base].
Qed.

Lemma empty_input_stops_without_estimate_witness :
  main [rated 3.9 2] = inr NoRatedPlaces.
Proof.
  assert (H : top10 [rated 3.9 2] = inr []).
  { unfold top10, recommend, filtered, rating_ok, rated, MIN_RATING. cbn.
    real_cases. reflexivity. }
  destruct (proj1 (proj2 (proj2 empty_input_stops_without_estimate)) _ H)
    as [Hm | Hm]; [| exact Hm].
  unfold main in Hm. rewrite H in Hm. discriminate Hm.
Defined.

(** ** The cache *)

Section CacheFacts.

Variables K V : Type.
Variable K_eq_dec : forall a b : K, {a = b} + {a <> b}.
Variable ttl : nat.

Lemma cache_lookup_head (k : K) (e : entry V) (c : cache K V) :
  cache_lookup K_eq_dec k ((k, e) :: c) = Some e.
Proof. cbn. destruct (K_eq_dec k k); [reflexivity | contradiction]. Qed.

Lemma cache_lookup_other (k k' : K) (e : entry V) (c : cache K V) :
  k' <> k ->
  cache_lookup K_eq_dec k' ((k, e) :: c) = cache_lookup K_eq_dec k' c.
Proof. intros Hne. cbn. destruct (K_eq_dec k k'); [now elim Hne | reflexivity]. Qed.

Lemma cache_data_hit (f : K -> V) (c : cache K V) (now : nat) (k : K) (e : entry V) :
  cache_lookup K_eq_dec k c = Some e -> fresh ttl now e = true ->
  cache_data K_eq_dec ttl f c now k =
  {| result := value e; computed := false; cache_after := c |}.
Proof. intros Hl Hf. unfold cache_data. now rewrite Hl, Hf. Qed.

(** A call either is served from the cache, which it leaves as it is, or
    runs the function and stores what it returned. *)
Lemma cache_data_cases (f : K -> V) (c : cache K V) (now : nat) (k : K) :
  (computed (cache_data K_eq_dec ttl f c now k) = false /\
   cache_after (cache_data K_eq_dec ttl f c now k) = c) \/
  cache_data K_eq_dec ttl f c now k =
  {| result := f k; computed := true;
     cache_after := (k, {| stored_at := now; value := f k |}) :: c |}.
Proof.
  unfold cache_data. destruct (cache_lookup K_eq_dec k c) as [e |]; [| now right].
  destruct (fresh ttl now e); [now left | now right].
Qed.

Lemma cache_data_twice (f g : K -> V) (c : cache K V) (t0 t1 : nat) (k : K) :
  (t0 <= t1 < t0 + ttl)%nat ->
  let first := cache_data K_eq_dec ttl f c t0 k in
  let second := cache_data K_eq_dec ttl g (cache_after first) t1 k in
  (calls first + calls second <= 1)%nat /\
  (computed first = true ->
   result first = f k /\
   cache_lookup K_eq_dec k (cache_after first) =
     Some {| stored_at := t0; value := f k |} /\
   second = {| result := f k; computed := false;
               cache_after := cache_after first |}).
Proof.
  intros Ht first second.
  destruct (cache_data_cases f c t0 k) as [[Hc Ha] | Hmiss].
  - fold first in Hc. split.
    + unfold calls at 1. rewrite Hc. unfold calls. destruct (computed second); lia.
    + rewrite Hc. discriminate.
  - fold first in Hmiss.
    assert (Hsecond : second = {| result := f k; computed := false;
                                  cache_after := cache_after first |}).
    { unfold second. rewrite Hmiss. cbn [cache_after].
      rewrite (@cache_data_hit g _ t1 k {| stored_at := t0; value := f k |});
        [reflexivity | apply cache_lookup_head |].
      unfold fresh. cbn. apply Nat.ltb_lt. lia. }
    split.
    + rewrite Hsecond, Hmiss. cbn. lia.
    + intros _. rewrite Hsecond. rewrite Hmiss. cbn.
      split; [reflexivity |]. split; [apply cache_lookup_head | reflexivity].
Qed.

End CacheFacts.

(** C6 as stated fails: a search that timed out is cached.  The identical
    search one second later is served the empty list from the cache, the
    provider is not called again, although it would now answer with two
    places. *)
Lemma failed_search_is_cached :
  let k : search_key := (10.3119, 123.8916, "cafe"%string, 3000%Z) in
  let first := cached_search_places "key" [] 0 times_out k in
  let second :=
    cached_search_places "key" (cache_after first) 1 (replies answer_ok) k in
  failed (search_places "key" times_out 10.3119 123.8916 "cafe" 3000) /\
  cache_after first <> [] /\
  computed second = false /\
  result second = [] /\
  length (returned (search_places "key" (replies answer_ok)
                                  10.3119 123.8916 "cafe" 3000)) = 2%nat.
Proof.
  intros k first second.
  assert (Hfirst : first =
                   {| result := []; computed := true;
                      cache_after := [(k, {| stored_at := 0; value := [] |})] |})
    by reflexivity.
  assert (Hsecond : second =
                    {| result := []; computed := false;
                       cache_after := cache_after first |}).
  { unfold second, cached_search_places. rewrite Hfirst. cbn [cache_after].
    rewrite (@cache_data_hit _ _ search_key_eq_dec TTL _ _ 1%nat k
               {| stored_at := 0; value := [] |});
      [reflexivity | apply cache_lookup_head | reflexivity]. }
  split; [unfold failed; cbn; discriminate |].
  split; [rewrite Hfirst; discriminate |].
  rewrite Hsecond. split; [reflexivity |]. split; [reflexivity |].
  now rewrite search_places_answer_ok.
Qed.

(** C6, as the code has it.  The list a call returns is cached under the
    exact argument tuple for 3600 seconds: of two identical searches less
    than an hour apart at most one calls the provider, and when the first
    one did, the second returns the same list from the cache.  This holds
    whatever the first call returned: after a failed search the empty list
    is what is cached and served.  Entries of other keys are not touched. *)
Theorem cached_search_places_within_window
    (GOOGLE_API_KEY : string) (c : cache search_key (list place))
    (t0 t1 : nat) (net0 net1 : request -> transport)
    (lat lng : R) (keyword : string) (radius : Z) :
  (t0 <= t1 < t0 + 3600)%nat ->
  let k : search_key := (lat, lng, keyword, radius) in
  let first := cached_search_places GOOGLE_API_KEY c t0 net0 k in
  let second :=
    cached_search_places GOOGLE_API_KEY (cache_after first) t1 net1 k in
  (calls first + calls second <= 1)%nat /\
  (computed first = true ->
   result first =
     returned (search_places GOOGLE_API_KEY net0 lat lng keyword radius) /\
   second = {| result := result first; computed := false;
               cache_after := cache_after first |}) /\
  (computed first = true ->
   failed (search_places GOOGLE_API_KEY net0 lat lng keyword radius) ->
   cache_lookup search_key_eq_dec k (cache_after first) =
     Some {| stored_at := t0; value := [] |} /\
   result second = []) /\
  (forall k',
      k' <> k ->
      cache_lookup search_key_eq_dec k' (cache_after first) =
      cache_lookup search_key_eq_dec k' c).
Proof.
  intros Ht k first second. subst first second.
  unfold cached_search_places.
  set (f := search_places_of_key GOOGLE_API_KEY net0).
  set (g := search_places_of_key GOOGLE_API_KEY net1).
  pose proof (@cache_data_twice _ _ search_key_eq_dec TTL f g c t0 t1 k Ht)
    as Htwice.
  cbv zeta in Htwice. destruct Htwice as [Hcalls Hrun].
  split; [exact Hcalls |].
  split; [| split].
  - intros Hc. destruct (Hrun Hc) as (Hres & _ & Hsec).
    split; [exact Hres |]. rewrite Hsec. now rewrite Hres.
  - intros Hc Hfail. destruct (Hrun Hc) as (Hres & Hlook & Hsec).
    assert (Hempty : f k = []).
    { unfold f, k, search_places_of_key.
      destruct (search_places_cases GOOGLE_API_KEY net0 lat lng keyword radius)
        as [[_ H] | [H _]]; [exact H | now elim Hfail]. }
    rewrite Hempty in *. split; [exact Hlook |]. now rewrite Hsec.
  - intros k' Hne.
    destruct (cache_data_cases search_key_eq_dec TTL f c t0 k) as [[_ Ha] | Hm].
    + now rewrite Ha.
    + rewrite Hm. cbn [cache_after]. now apply cache_lookup_other.
Qed.

Lemma cached_search_places_within_window_witness :
  let k : search_key := (10.3119, 123.8916, "cafe"%string, 3000%Z) in
  let first := cached_search_places "key" [] 0 (replies answer_ok) k in
  let second := cached_search_places "key" (cache_after first) 1 times_out k in
  (calls first + calls second <= 1)%nat.
Proof.
  intros k first second.
  apply (@cached_search_places_within_window
           "key" [] 0 1 (replies answer_ok) times_out
           10.3119 123.8916 "cafe" 3000).
  lia.
Defined.

(** * Further properties *)

(** ** Which items [search_places] can normalise *)

Lemma bind_inl {A B : Type} (c : exc A) (k : A -> exc B) (e : py_exception) :
  bind c k = inl e -> c = inl e \/ exists a, c = inr a /\ k a = inl e.
Proof. destruct c as [e' | a]; cbn; [intros [= ->]; now left | eauto]. Qed.

Lemma py_float_is_number (v : json) :
  if is_number v then exists r, py_float v = inr r
  else py_float v = inl TypeError.
Proof. destruct v; cbn; eauto. Qed.

Lemma normalize_outcome (lat lng : R) (item : json) :
  if well_formed_item item
  then exists pl, normalize lat lng item = inr pl
  else normalize lat lng item = inl AttributeError \/
       normalize lat lng item = inl TypeError.
Proof.
  destruct item as [ | b | x | s | items | fields]; try (now left).
  unfold normalize, well_formed_item. cbn [py_get bind ret].
  assert (Hcoords : forall loc : list (string * json),
    if number_or_absent (dict_get "lat" loc) && number_or_absent (dict_get "lng" loc)
    then exists lat2 lon2,
        py_float (match dict_get "lat" loc with Some v => v | None => JNum 0 end)
          = inr lat2 /\
        py_float (match dict_get "lng" loc with Some v => v | None => JNum 0 end)
          = inr lon2
    else py_float (match dict_get "lat" loc with Some v => v | None => JNum 0 end)
           = inl TypeError \/
         exists lat2,
           py_float (match dict_get "lat" loc with Some v => v | None => JNum 0 end)
             = inr lat2 /\
           py_float (match dict_get "lng" loc with Some v => v | None => JNum 0 end)
             = inl TypeError).
  { intros loc. unfold number_or_absent.
    destruct (dict_get "lat" loc) as [u |], (dict_get "lng" loc) as [w |];
      cbn [andb py_float ret];
      try pose proof (py_float_is_number u) as Hu;
      try pose proof (py_float_is_number w) as Hw;
      try destruct (is_number u); try destruct (is_number w); cbn [andb];
      repeat match goal with H : exists _, _ |- _ => destruct H end;
      eauto 6. }
  destruct (dict_get "geometry" fields) as [g |].
  2: { cbn [py_get bind ret dict_get].
       destruct (dict_get "opening_hours" fields) as [o |]; cbn [andb].
       - destruct o; cbn -[haversine]; try (left; reflexivity);
           rewrite haversine_formula; cbn; eauto.
       - cbn -[haversine]. rewrite haversine_formula. cbn. eauto. }
  destruct g as [ | b | x | s | items | geometry]; try (now left).
  cbn [py_get bind ret].
  destruct (dict_get "location" geometry) as [l |].
  2: { cbn [py_get bind ret dict_get].
       destruct (dict_get "opening_hours" fields) as [o |]; cbn [andb].
       - destruct o; cbn -[haversine]; try (left; reflexivity);
           rewrite haversine_formula; cbn; eauto.
       - cbn -[haversine]. rewrite haversine_formula. cbn. eauto. }
  destruct l as [ | b | x | s | items | loc]; try (now left).
  cbn [py_get bind ret].
  specialize (Hcoords loc).
  destruct (number_or_absent (dict_get "lat" loc) && number_or_absent (dict_get "lng" loc)).
  - destruct Hcoords as (lat2 & lon2 & Hlat & Hlng).
    destruct (dict_get "opening_hours" fields) as [o |]; cbn [andb].
    + destruct o; cbn [py_get bind ret]; try (left; reflexivity);
        rewrite Hlat, Hlng; cbn [bind]; rewrite haversine_formula; cbn; eauto.
    + cbn [py_get bind ret]. rewrite Hlat, Hlng. cbn [bind].
      rewrite haversine_formula. cbn. eauto.
  - cbn [andb].
    destruct (dict_get "opening_hours" fields) as [o |].
    + destruct o; cbn [py_get bind ret]; try (left; reflexivity);
        destruct Hcoords as [Hlat | (lat2 & Hlat & Hlng)];
        rewrite Hlat; cbn [bind]; try rewrite Hlng; cbn [bind]; now right.
    + cbn [py_get bind ret].
      destruct Hcoords as [Hlat | (lat2 & Hlat & Hlng)];
        rewrite Hlat; cbn [bind]; try rewrite Hlng; cbn [bind]; now right.
Qed.

Lemma normalize_well_formed (lat lng : R) (item : json) :
  well_formed_item item = true -> exists pl, normalize lat lng item = inr pl.
Proof.
  intros H. pose proof (normalize_outcome lat lng item) as Ho.
  now rewrite H in Ho.
Qed.

Lemma normalize_raises (lat lng : R) (item : json) (e : py_exception) :
  normalize lat lng item = inl e ->
  well_formed_item item = false /\ (e = AttributeError \/ e = TypeError).
Proof.
  intros He. pose proof (normalize_outcome lat lng item) as Ho.
  destruct (well_formed_item item).
  - destruct Ho as (pl & Ho). rewrite Ho in He. discriminate He.
  - split; [reflexivity |].
    destruct Ho as [Ho | Ho]; rewrite Ho in He; injection He as <-; auto.
Qed.

Lemma forallb_false {A : Type} (f : A -> bool) (l : list A) :
  forallb f l = false -> exists a, In a l /\ f a = false.
Proof.
  induction l as [| a l IH]; cbn; [discriminate |].
  destruct (f a) eqn:Ha; cbn.
  - intros H. destruct (IH H) as (a' & Hin & Ha'). eauto.
  - intros _. eauto.
Qed.

(** X4.  Only a well-formed item can be normalised: an object whose
    [geometry] and [geometry.location], when present, are objects, whose
    [lat] and [lng], when present, are numbers, and whose [opening_hours],
    when present, is an object or null.  On every other item the body of
    the loop raises. *)
Theorem normalize_rejects_ill_formed_items (lat lng : R) (item : json) :
  (forall pl, normalize lat lng item = inr pl -> well_formed_item item = true) /\
  (well_formed_item item = false -> exists e, normalize lat lng item = inl e).
Proof.
  pose proof (normalize_outcome lat lng item) as Ho. split.
  - intros pl Hpl. destruct (well_formed_item item); [reflexivity |].
    destruct Ho as [Ho | Ho]; rewrite Ho in Hpl; discriminate Hpl.
  - intros Hw. rewrite Hw in Ho. destruct Ho; eauto.
Qed.

Lemma normalize_rejects_ill_formed_items_witness :
  exists e, normalize 10.3119 123.8916 (JStr "closed") = inl e.
Proof.
  apply (proj2 (normalize_rejects_ill_formed_items
                  10.3119 123.8916 (JStr "closed"))).
  reflexivity.
Defined.

Lemma map_exc_all {A B : Type} (f : A -> exc B) (l : list A) :
  Forall (fun a => exists b, f a = inr b) l ->
  exists out, map_exc f l = inr out /\ length out = length l.
Proof.
  induction 1 as [| a l (b & Hb) _ (out & Hout & Hlen)]; cbn.
  - now exists [].
  - rewrite Hb, Hout. cbn. exists (b :: out). cbn. now rewrite Hlen.
Qed.

Lemma map_exc_inl {A B : Type} (f : A -> exc B) (l : list A) (e : py_exception) :
  map_exc f l = inl e -> exists a, In a l /\ f a = inl e.
Proof.
  induction l as [| a l IH]; cbn; [discriminate |].
  intros H. apply bind_inl in H as [H | (b & Hb & H)].
  - exists a. auto.
  - apply bind_inl in H as [H | (bs & _ & H)]; [| discriminate H].
    destruct (IH H) as (a' & Hin & Ha'). exists a'. auto.
Qed.

Lemma map_exc_fails {A B : Type} (f : A -> exc B) (l : list A) :
  Exists (fun a => exists e, f a = inl e) l -> exists e, map_exc f l = inl e.
Proof.
  induction 1 as [a l (e & He) | a l _ (e & IH)]; cbn.
  - rewrite He. cbn. eauto.
  - destruct (f a) as [e' | b]; cbn; [eauto |]. rewrite IH. cbn. eauto.
Qed.

(** X5.  A search is all or nothing.  For an accepted answer whose results
    can be iterated: when one item is not well formed the call returns the
    empty list, whatever the other items are, and shows the
    unexpected-error message; whenever the call shows no error it returns
    one record per item, and every item is well formed. *)
Theorem search_places_all_or_nothing
    (GOOGLE_API_KEY : string) (net : request -> transport) (lat lng : R)
    (keyword : string) (radius : Z)
    (r : response) (d : list (string * json)) (items : list json) :
  let out := search_places GOOGLE_API_KEY net lat lng keyword radius in
  net (build_request GOOGLE_API_KEY lat lng keyword radius) = GetReturns r ->
  raise_for_status r = inr tt ->
  body r = Some (JObj d) ->
  accepted_status (provider_status d) = true ->
  py_iter (match dict_get "results" d with
           | Some v => v
           | None => JList []
           end) = inr items ->
  (forallb well_formed_item items = false ->
   returned out = [] /\ exists e, shown out = [UnexpectedError e]) /\
  (shown out = [] ->
   length (returned out) = length items /\
   forallb well_formed_item items = true).
Proof.
  intros out Hn Hs Hb Ha Hit.
  assert (Hbad : forallb well_formed_item items = false ->
                 returned out = [] /\ exists e, shown out = [UnexpectedError e]).
  { intros Hwf. unfold out, search_places.
    erewrite search_try_object by eassumption. rewrite Ha.
    cbn [negb py_get bind ret]. rewrite Hit. cbn [bind].
    assert (Hex : Exists (fun a => exists e, normalize lat lng a = inl e) items).
    { rewrite Exists_exists.
      destruct (forallb_false well_formed_item items Hwf) as (item & Hin & Hitem).
      exists item. split; [exact Hin |].
      pose proof (normalize_outcome lat lng item) as Ho. rewrite Hitem in Ho.
      destruct Ho; eauto. }
    destruct (@map_exc_fails _ _ _ _ Hex) as (e & He). rewrite He. cbn [bind].
    destruct (@map_exc_inl _ _ _ _ _ He) as (item & _ & Hitem).
    destruct (@normalize_raises _ _ _ _ Hitem) as [_ [-> | ->]]; cbn; eauto. }
  split; [exact Hbad |].
  intros Hshown.
  destruct (forallb well_formed_item items) eqn:Hwf.
  - split; [| reflexivity].
    rewrite forallb_forall in Hwf.
    destruct (@map_exc_all _ _ (normalize lat lng) items) as (res & Hres & Hlen).
    { rewrite Forall_forall. intros item Hin.
      apply normalize_well_formed. now apply Hwf. }
    unfold out, search_places.
    erewrite search_try_object by eassumption. rewrite Ha.
    cbn [negb py_get bind ret]. rewrite Hit. cbn [bind]. rewrite Hres. exact Hlen.
  - destruct (Hbad eq_refl) as (_ & e & He). rewrite He in Hshown.
    discriminate Hshown.
Qed.

Lemma search_places_all_or_nothing_witness :
  length (returned (search_places "key" (replies answer_ok)
                                  10.3119 123.8916 "cafe" 3000)) = 2%nat /\
  returned (search_places "key" (replies answer_one_bad)
                          10.3119 123.8916 "cafe" 3000) = [].
Proof.
  split.
  - apply (proj2 (@search_places_all_or_nothing
                    "key" (replies answer_ok) 10.3119 123.8916 "cafe" 3000
                    {| status_code := 200; body := Some answer_ok |}
                    _ [JObj item_full; JObj []]
                    eq_refl eq_refl eq_refl eq_refl eq_refl)).
    now rewrite search_places_answer_ok.
  - apply (proj1 (@search_places_all_or_nothing
                    "key" (replies answer_one_bad) 10.3119 123.8916 "cafe" 3000
                    {| status_code := 200; body := Some answer_one_bad |}
                    _ [JObj item_full; JStr "closed"]
                    eq_refl eq_refl eq_refl eq_refl eq_refl)).
    reflexivity.
Defined.

(** ** More on filter, sort, truncate *)

Lemma filter_exc_total {A : Type} (f : A -> exc bool) (l : list A) :
  Forall (fun a => exists b, f a = inr b) l ->
  filter_exc f l =
  inr (filter (fun a => match f a with inr true => true | _ => false end) l).
Proof.
  induction 1 as [| a l (b & Hb) _ IH]; cbn; [reflexivity |].
  rewrite Hb, IH. cbn. now destruct b.
Qed.

Lemma filter_exc_inl {A : Type} (f : A -> exc bool) (l : list A) (e : py_exception) :
  filter_exc f l = inl e -> exists a, In a l /\ f a = inl e.
Proof.
  induction l as [| a l IH]; cbn; [discriminate |].
  intros H. apply bind_inl in H as [H | (b & Hb & H)].
  - exists a. auto.
  - apply bind_inl in H as [H | (bs & _ & H)]; [| discriminate H].
    destruct (IH H) as (a' & Hin & Ha'). exists a'. auto.
Qed.

Lemma filter_exc_fails {A : Type} (f : A -> exc bool) (l : list A) :
  Exists (fun a => exists e, f a = inl e) l -> exists e, filter_exc f l = inl e.
Proof.
  induction 1 as [a l (e & He) | a l _ (e & IH)]; cbn.
  - rewrite He. cbn. eauto.
  - destruct (f a) as [e' | b]; cbn; [eauto |]. rewrite IH. cbn. eauto.
Qed.

Lemma rating_ok_number (min_rating : R) (p : place) :
  if has_number_rating p
  then exists b, rating_ok min_rating p = inr b
  else rating_ok min_rating p = inl TypeError.
Proof.
  unfold has_number_rating, rating_ok.
  pose proof (py_float_is_number (Place.rating p)) as H.
  destruct (is_number (Place.rating p)).
  - destruct H as (r & ->). cbn. eauto.
  - now rewrite H.
Qed.

Lemma recommend_numbers (min_rating : R) (top_n : nat) (raw : list place) :
  forallb has_number_rating raw = true ->
  recommend min_rating top_n raw =
  inr (firstn top_n (sort_by_dist (filter (passes min_rating) raw))).
Proof.
  intros H. rewrite forallb_forall in H. unfold recommend, filtered.
  rewrite filter_exc_total.
  - cbn [bind]. unfold ret. do 3 f_equal. apply filter_ext. intros p.
    apply rating_ok_passes.
  - rewrite Forall_forall. intros p Hp.
    pose proof (rating_ok_number min_rating p) as Hr. now rewrite (H p Hp) in Hr.
Qed.

Lemma recommend_not_number (min_rating : R) (top_n : nat) (raw : list place) :
  forallb has_number_rating raw = false ->
  recommend min_rating top_n raw = inl TypeError.
Proof.
  intros H. destruct (forallb_false _ _ H) as (p & Hin & Hp).
  assert (Hex : Exists (fun a => exists e, rating_ok min_rating a = inl e) raw).
  { rewrite Exists_exists. exists p. split; [exact Hin |].
    pose proof (rating_ok_number min_rating p) as Hr. rewrite Hp in Hr. eauto. }
  destruct (@filter_exc_fails _ _ _ Hex) as (e & He).
  destruct (@filter_exc_inl _ _ _ _ He) as (q & _ & Hq).
  pose proof (rating_ok_number min_rating q) as Hr.
  destruct (has_number_rating q).
  - destruct Hr as (b & Hb). rewrite Hb in Hq. discriminate Hq.
  - rewrite Hr in Hq. injection Hq as <-.
    unfold recommend, filtered. now rewrite He.
Qed.

(** X6.  The pipeline raises exactly when the rating of some record is not a
    number (a string, null, a list or an object), and what it raises is
    TypeError; otherwise it returns the first [top_n] of the sorted
    records that pass. *)
Theorem recommend_raises_on_non_number_rating
    (min_rating : R) (top_n : nat) (raw : list place) :
  (forallb has_number_rating raw = true ->
   recommend min_rating top_n raw =
   inr (firstn top_n (sort_by_dist (filter (passes min_rating) raw)))) /\
  (forallb has_number_rating raw = false ->
   recommend min_rating top_n raw = inl TypeError) /\
  (forall e, recommend min_rating top_n raw = inl e ->
             e = TypeError /\ exists p, In p raw /\ has_number_rating p = false).
Proof.
  split; [apply recommend_numbers |]. split; [apply recommend_not_number |].
  intros e He. destruct (forallb has_number_rating raw) eqn:Hn.
  - rewrite recommend_numbers in He by exact Hn. discriminate He.
  - rewrite recommend_not_number in He by exact Hn. injection He as <-.
    split; [reflexivity |]. now apply forallb_false.
Qed.

Lemma recommend_raises_on_non_number_rating_witness :
  recommend 4 10 [rated 4.5 1; Place.mk (JStr "Spa") (JStr "4.5") (JNum 0)
                                        (JNum 0) (JNum 0) (JStr "") JNull
                                        (JStr "") 2] = inl TypeError.
Proof.
  apply (proj1 (proj2 (recommend_raises_on_non_number_rating 4 10 _))).
  reflexivity.
Defined.

Lemma recommend_inr (min_rating : R) (top_n : nat) (raw top : list place) :
  recommend min_rating top_n raw = inr top ->
  top = firstn top_n (sort_by_dist (filter (passes min_rating) raw)).
Proof.
  unfold recommend. intros H. apply bind_inr in H as (kept & Hk & H).
  injection H as <-. now rewrite (filtered_inr _ _ Hk).
Qed.

Lemma sorted_firstn_skipn {A : Type} (le : A -> A -> Prop) (n : nat) (l : list A) :
  StronglySorted le l ->
  forall x y, In x (firstn n l) -> In y (skipn n l) -> le x y.
Proof.
  intros H. revert n. induction H as [| a l Hs IH Ha]; intros [| n] x y; cbn;
    try contradiction.
  intros [<- | Hx] Hy.
  - rewrite Forall_forall in Ha. apply Ha.
    rewrite <- (firstn_skipn n l). apply in_or_app. now right.
  - now apply (IH n).
Qed.

(** X7.  The records shown are the nearest ones that pass the filter: together
    with the records left out they are a rearrangement of the records that
    pass, no record left out is nearer than a record shown, and nothing is
    left out unless [top_n] records are shown. *)
Theorem recommend_keeps_the_nearest
    (min_rating : R) (top_n : nat) (raw top : list place) :
  recommend min_rating top_n raw = inr top ->
  exists rest,
    Permutation (top ++ rest) (filter (passes min_rating) raw) /\
    (forall p q, In p top -> In q rest ->
                 Place.dist_km p <= Place.dist_km q) /\
    (rest = [] \/ length top = top_n).
Proof.
  intros H. apply recommend_inr in H. subst top.
  set (s := sort_by_dist (filter (passes min_rating) raw)).
  exists (skipn top_n s). split; [| split].
  - rewrite firstn_skipn. apply sort_by_dist_perm.
  - intros p q Hp Hq.
    exact (sorted_firstn_skipn top_n (sort_by_dist_sorted _) p q Hp Hq).
  - destruct (Nat.le_gt_cases (length s) top_n) as [Hle | Hgt].
    + left. now apply skipn_all2.
    + right. apply firstn_length_le. lia.
Qed.

Lemma recommend_keeps_the_nearest_witness :
  exists rest,
    Permutation ([rated 4 1; rated 4.5 3] ++ rest)
                (filter (passes 4) sample_raw) /\
    (rest = [] \/ length [rated 4 1; rated 4.5 3] = 10%nat).
Proof.
  destruct (recommend_keeps_the_nearest 4 10 sample_raw recommend_sample)
    as (rest & Hperm & _ & Hrest).
  exists rest. split; assumption.
Defined.

Lemma insert_by_dist_head (x : place) (l : list place) :
  Forall (by_dist x) l -> insert_by_dist x l = x :: l.
Proof.
  destruct 1 as [| y l Hy _]; cbn; [reflexivity |].
  unfold by_dist in Hy.
  destruct (Rlt_dec (Place.dist_km y) (Place.dist_km x)); [lra | reflexivity].
Qed.

Lemma sort_by_dist_sorted_id (l : list place) :
  StronglySorted by_dist l -> sort_by_dist l = l.
Proof.
  induction 1 as [| x l Hs IH Hx]; [reflexivity |].
  cbn. fold (sort_by_dist l). rewrite IH. now apply insert_by_dist_head.
Qed.

Lemma filter_all {A : Type} (f : A -> bool) (l : list A) :
  (forall a, In a l -> f a = true) -> filter f l = l.
Proof.
  induction l as [| a l IH]; cbn; [reflexivity |]. intros H.
  rewrite (H a) by now left. f_equal. apply IH. intros b Hb. apply H. now right.
Qed.

Lemma passes_has_number (min_rating : R) (p : place) :
  passes min_rating p = true -> has_number_rating p = true.
Proof.
  intros H. apply passes_spec in H as (r & Hr & _).
  unfold has_number_rating.
  pose proof (py_float_is_number (Place.rating p)) as Hn.
  destruct (is_number (Place.rating p)); [reflexivity |].
  rewrite Hn in Hr. discriminate Hr.
Qed.

(** X8.  Running the pipeline on its own output changes nothing: the list is
    already filtered, sorted and short enough. *)
Theorem recommend_idempotent
    (min_rating : R) (top_n : nat) (raw top : list place) :
  recommend min_rating top_n raw = inr top ->
  recommend min_rating top_n top = inr top.
Proof.
  intros H. apply recommend_inr in H.
  assert (Hpass : forall p, In p top -> passes min_rating p = true).
  { intros p Hp. rewrite H in Hp. apply In_firstn in Hp.
    apply (Permutation_in _ (sort_by_dist_perm _)) in Hp.
    now apply filter_In in Hp as [_ Hp]. }
  assert (Hsorted : StronglySorted by_dist top).
  { rewrite H. apply StronglySorted_firstn, sort_by_dist_sorted. }
  assert (Hlen : (length top <= top_n)%nat).
  { rewrite H. apply firstn_le_length. }
  rewrite recommend_numbers.
  - rewrite (filter_all _ _ Hpass), (sort_by_dist_sorted_id Hsorted).
    now rewrite firstn_all2.
  - rewrite forallb_forall. intros p Hp.
    apply (passes_has_number min_rating). now apply Hpass.
Qed.

Lemma recommend_idempotent_witness :
  recommend 4 10 [rated 4 1; rated 4.5 3] = inr [rated 4 1; rated 4.5 3].
Proof. exact (recommend_idempotent 4 10 sample_raw recommend_sample). Defined.

(** ** More on the page *)

(** X10.  On a result page the number of places found is the number of cards,
    between 1 and 10 and at most the number of places searched; every
    card carries a record of the list searched, with its status. *)
Theorem main_counts (raw : list place) (r : results_page) :
  main raw = inr (Results r) ->
  (1 <= found r <= 10)%nat /\
  (found r <= total r)%nat /\
  total r = length raw /\
  length (cards r) = found r /\
  Forall (fun c => In (fst c) raw /\ snd c = status (fst c)) (cards r).
Proof.
  intros H. apply main_results_inv in H as (top & Htop & Hne & _ & ->).
  cbn [found total cards]. apply recommend_inr in Htop.
  assert (Hlen : (length top <= length raw)%nat).
  { rewrite Htop, length_firstn.
    rewrite (Permutation_length (sort_by_dist_perm _)).
    pose proof (filter_length_le (passes MIN_RATING) raw). lia. }
  assert (Hin : forall p, In p top -> In p raw).
  { intros p Hp. rewrite Htop in Hp. apply In_firstn in Hp.
    apply (Permutation_in _ (sort_by_dist_perm _)) in Hp.
    now apply filter_In in Hp as [Hp _]. }
  split; [split |].
  - destruct top; [now elim Hne | cbn; lia].
  - rewrite Htop. apply (firstn_le_length TOP_N).
  - split; [exact Hlen |]. split; [reflexivity |].
    split; [apply length_map |].
    rewrite Forall_forall. intros c Hc. apply in_map_iff in Hc as (p & <- & Hp).
    cbn. auto.
Qed.

Lemma main_counts_witness : (1 <= 1 <= 10)%nat /\ (1 <= 1)%nat.
Proof.
  destruct (@main_counts _ _ main_one_far_place) as (H1 & H2 & _).
  exact (conj H1 H2).
Defined.

(** X12.  The fare estimate is the base fare 60 up to an average of 4/3 km and
    the linear tariff [40 + 15 * avg] from there on; it never decreases
    when the average grows. *)
Theorem grab_est_base_fare_threshold :
  (forall avg, avg <= 4 / 3 -> grab_est avg = 60) /\
  (forall avg, 4 / 3 <= avg -> grab_est avg = 40 + avg * 15) /\
  (forall a b, a <= b -> grab_est a <= grab_est b).
Proof.
  unfold grab_est, py_max. split; [| split].
  - intros avg H. destruct (Rlt_dec 60 (40 + avg * 15)); lra.
  - intros avg H. destruct (Rlt_dec 60 (40 + avg * 15)); lra.
  - intros a b H.
    destruct (Rlt_dec 60 (40 + a * 15)), (Rlt_dec 60 (40 + b * 15)); lra.
Qed.

Lemma grab_est_base_fare_threshold_witness : grab_est 1 = 60 /\ grab_est 2 = 70.
Proof.
  split.
  - apply (proj1 grab_est_base_fare_threshold). lra.
  - replace 70 with (40 + 2 * 15) by lra.
    apply (proj1 (proj2 grab_est_base_fare_threshold)). lra.
Defined.

(** ** From the search to the page *)

Lemma average_nonneg (l : list place) :
  Forall (fun p => 0 <= Place.dist_km p) l -> 0 <= sum_dist l / INR (length l).
Proof.
  intros H.
  assert (Hs : 0 <= sum_dist l).
  { rewrite sum_dist_fold_right. induction H as [| p l Hp _ IH]; cbn; lra. }
  destruct l as [| p l]; [cbn; unfold Rdiv; rewrite Rinv_0; lra |].
  apply Rmult_le_pos; [exact Hs |].
  left. apply Rinv_0_lt_compat, lt_0_INR. cbn. lia.
Qed.

Section PageOfSearch.

Variable GOOGLE_API_KEY : string.
Variable net : request -> transport.
Variables lat lng : R.
Variable keyword : string.
Variable radius : Z.

Let req := build_request GOOGLE_API_KEY lat lng keyword radius.
Let out := search_places GOOGLE_API_KEY net lat lng keyword radius.

(** X13.  After a failed search the page is the "no results" warning, as after
    a search that found nothing. *)
Theorem failed_search_shows_no_results :
  (failed out -> main (returned out) = inr NoResults) /\
  (listed_items (net req) = [] -> main (returned out) = inr NoResults).
Proof.
  destruct (search_places_cases GOOGLE_API_KEY net lat lng keyword radius)
    as [[Hf He] | [Hs Hall]]; unfold out, req.
  - split; intros _; now rewrite He.
  - split; [intros Hf; now elim Hf |].
    intros Hnil. rewrite Hnil in Hall. inversion Hall. reflexivity.
Qed.

(** X15.  Every card of the page of a search shows a record the search
    returned, at a distance that is not negative and with a rating of at
    least 4 that the provider gave: a place without rating is never
    shown.  The average distance is not negative either. *)
Theorem cards_of_search_are_rated (r : results_page) :
  main (returned out) = inr (Results r) ->
  Forall (fun c =>
            In (fst c) (returned out) /\
            0 <= Place.dist_km (fst c) /\
            exists fields v x,
              In (JObj fields) (listed_items (net req)) /\
              dict_get "rating" fields = Some v /\
              Place.rating (fst c) = v /\
              py_float v = inr x /\ 4 <= x)
         (cards r) /\
  exists avg est, grab r = Some (avg, est) /\ 0 <= avg.
Proof.
  intros H. apply main_results_inv in H as (top & Htop & Hne & _ & ->).
  cbn [cards grab]. apply recommend_inr in Htop.
  assert (Hin : forall p, In p top ->
                          In p (returned out) /\ passes MIN_RATING p = true).
  { intros p Hp. rewrite Htop in Hp. apply In_firstn in Hp.
    apply (Permutation_in _ (sort_by_dist_perm _)) in Hp.
    now apply filter_In in Hp. }
  assert (Hpos : forall p, In p top -> 0 <= Place.dist_km p).
  { intros p Hp. destruct (Hin p Hp) as [Hret _].
    apply search_places_returned_inv in Hret as (item & _ & Hnorm).
    destruct (normalize_inv _ _ _ Hnorm)
      as (fields & lat2 & lon2 & _ & _ & _ & _ & _ & _ & _ & _ & _ & _ & _ & _ & Hd).
    exact (haversine_nonneg _ _ _ _ Hd). }
  split.
  - rewrite Forall_forall. intros c Hc.
    apply in_map_iff in Hc as (p & <- & Hp). cbn [fst].
    destruct (Hin p Hp) as [Hret Hpass].
    split; [exact Hret |]. split; [exact (Hpos p Hp) |].
    apply search_places_returned_inv in Hret as (item & Hitem & Hnorm).
    destruct (normalize_inv _ _ _ Hnorm)
      as (fields & lat2 & lon2 & -> & _ & Hrating & _).
    apply passes_spec in Hpass as (x & Hx & Hle).
    destruct (dict_get "rating" fields) as [v |] eqn:Hv.
    + exists fields, v, x. rewrite Hrating in Hx.
      split; [exact Hitem |]. split; [exact Hv |].
      split; [exact Hrating |]. split; [exact Hx | exact Hle].
    + rewrite Hrating in Hx. cbn in Hx. injection Hx as <-.
      unfold MIN_RATING in Hle. lra.
  - do 2 eexists. split; [reflexivity |].
    apply average_nonneg. rewrite Forall_forall. exact Hpos.
Qed.

End PageOfSearch.

Lemma failed_search_shows_no_results_witness :
  main (returned (search_places "key" times_out 10.3119 123.8916 "cafe" 3000))
  = inr NoResults.
Proof.
  apply (proj1 (failed_search_shows_no_results
                  "key" times_out 10.3119 123.8916 "cafe" 3000)).
  unfold failed. cbn. discriminate.
Defined.

Lemma main_answer_ok (lat lng : R) :
  main [place_full lat lng; place_default lat lng] =
  inr (Results
         {| cards := [(place_full lat lng, OPEN)];
            found := 1; total := 2;
            grab := Some (sum_dist [place_full lat lng] / 1,
                          grab_est (sum_dist [place_full lat lng] / 1)) |}).
Proof.
  unfold main, top10, recommend, filtered, rating_ok, MIN_RATING.
  cbn [filter_exc bind ret place_full place_default Place.rating py_float].
  destruct (Rle_dec 4 4.5) as [_ | H]; [| exfalso; lra].
  destruct (Rle_dec 4 0) as [H | _]; [exfalso; lra |].
  reflexivity.
Qed.

Lemma cards_of_search_are_rated_witness :
  0 <= Place.dist_km (place_full 10.3119 123.8916).
Proof.
  assert (H : main (returned (search_places "key" (replies answer_ok)
                                            10.3119 123.8916 "cafe" 3000)) =
              inr (Results
                     {| cards := [(place_full 10.3119 123.8916, OPEN)];
                        found := 1; total := 2;
                        grab := Some (sum_dist [place_full 10.3119 123.8916] / 1,
                                      grab_est (sum_dist [place_full 10.3119 123.8916] / 1)) |}))
    by (rewrite search_places_answer_ok; apply main_answer_ok).
  destruct (@cards_of_search_are_rated
              "key" (replies answer_ok) 10.3119 123.8916 "cafe" 3000 _ H)
    as [Hcards _].
  inversion Hcards as [| c cs (_ & Hpos & _) _]; subst. exact Hpos.
Defined.

(** ** More on the cache *)

Section CacheMoreFacts.

Variables K V : Type.
Variable K_eq_dec : forall a b : K, {a = b} + {a <> b}.
Variable ttl : nat.

Lemma cache_data_stale (f : K -> V) (c : cache K V) (now : nat) (k : K)
    (e : entry V) :
  cache_lookup K_eq_dec k c = Some e -> fresh ttl now e = false ->
  cache_data K_eq_dec ttl f c now k =
  {| result := f k; computed := true;
     cache_after := (k, {| stored_at := now; value := f k |}) :: c |}.
Proof. intros Hl Hf. unfold cache_data. now rewrite Hl, Hf. Qed.

Lemma cache_lookup_In (k : K) (c : cache K V) (e : entry V) :
  cache_lookup K_eq_dec k c = Some e -> In (k, e) c.
Proof.
  induction c as [| [k' e'] c IH]; cbn; [discriminate |].
  destruct (K_eq_dec k' k) as [-> | _].
  - intros [= ->]. now left.
  - intros H. right. now apply IH.
Qed.

End CacheMoreFacts.

(** X16.  A cached list expires: when a search ran at [t0], the identical search
    3600 seconds later or more calls the provider again, returns what the
    provider answers then, and caches that answer in place of the old. *)
Theorem cached_search_places_expires
    (GOOGLE_API_KEY : string) (c : cache search_key (list place))
    (t0 t1 : nat) (net0 net1 : request -> transport)
    (lat lng : R) (keyword : string) (radius : Z) :
  (t0 + 3600 <= t1)%nat ->
  let k : search_key := (lat, lng, keyword, radius) in
  let first := cached_search_places GOOGLE_API_KEY c t0 net0 k in
  let second :=
    cached_search_places GOOGLE_API_KEY (cache_after first) t1 net1 k in
  computed first = true ->
  computed second = true /\
  result second =
    returned (search_places GOOGLE_API_KEY net1 lat lng keyword radius) /\
  cache_lookup search_key_eq_dec k (cache_after second) =
    Some {| stored_at := t1; value := result second |}.
Proof.
  intros Ht k first second Hc. subst first second.
  unfold cached_search_places in *.
  set (f := search_places_of_key GOOGLE_API_KEY net0) in *.
  set (g := search_places_of_key GOOGLE_API_KEY net1).
  destruct (cache_data_cases search_key_eq_dec TTL f c t0 k) as [[Hf _] | Hm].
  - rewrite Hf in Hc. discriminate Hc.
  - rewrite Hm. cbn [cache_after].
    rewrite (@cache_data_stale _ _ search_key_eq_dec TTL g _ t1 k
               {| stored_at := t0; value := f k |}).
    + cbn [computed result cache_after].
      split; [reflexivity |]. split; [reflexivity | apply cache_lookup_head].
    + apply cache_lookup_head.
    + unfold fresh, TTL. cbn [stored_at]. apply Nat.ltb_ge. lia.
Qed.

Lemma cached_search_places_expires_witness :
  let k : search_key := (10.3119, 123.8916, "cafe"%string, 3000%Z) in
  let first := cached_search_places "key" [] 0 times_out k in
  let second :=
    cached_search_places "key" (cache_after first) 3600 (replies answer_ok) k in
  computed second = true.
Proof.
  intros k first second.
  apply (@cached_search_places_expires
           "key" [] 0 3600 times_out (replies answer_ok)
           10.3119 123.8916 "cafe" 3000).
  - lia.
  - reflexivity.
Defined.

Lemma reachable_values (GOOGLE_API_KEY : string) (h : list search_call)
    (c : cache search_key (list place)) :
  reachable GOOGLE_API_KEY h c ->
  forall k e, In (k, e) c ->
              exists net0,
                In (stored_at e, net0, k) h /\
                value e = search_places_of_key GOOGLE_API_KEY net0 k.
Proof.
  induction 1 as [| h c now net k0 Hr IH]; [contradiction |].
  intros k e Hin. unfold cached_search_places in Hin.
  assert (Hold : In (k, e) c ->
                 exists net0,
                   In (stored_at e, net0, k) ((now, net, k0) :: h) /\
                   value e = search_places_of_key GOOGLE_API_KEY net0 k).
  { intros Hc. destruct (IH k e Hc) as (net0 & Hh & Hv).
    exists net0. split; [now right | exact Hv]. }
  destruct (cache_data_cases search_key_eq_dec TTL
              (search_places_of_key GOOGLE_API_KEY net) c now k0)
    as [[_ Ha] | Hm].
  - rewrite Ha in Hin. now apply Hold.
  - rewrite Hm in Hin. cbn [cache_after] in Hin.
    destruct Hin as [[= <- <-] | Hin]; [| now apply Hold].
    exists net. split; [now left | reflexivity].
Qed.

(** X17.  Whatever calls came before, the decorated [search_places] either
    runs the function and returns what it returns for the network of this
    call, or serves, without running it, the list the function returned
    at an earlier call with the same arguments less than 3600 seconds ago.
    Hence every record served, from the cache too, has the distance
    [haversine] computes from the origin of the query, which is not
    negative. *)
Theorem cached_results_are_search_results
    (GOOGLE_API_KEY : string) (h : list search_call)
    (c : cache search_key (list place))
    (now : nat) (net : request -> transport)
    (lat lng : R) (keyword : string) (radius : Z) :
  reachable GOOGLE_API_KEY h c ->
  let k : search_key := (lat, lng, keyword, radius) in
  let call := cached_search_places GOOGLE_API_KEY c now net k in
  ((computed call = true /\
    result call =
      returned (search_places GOOGLE_API_KEY net lat lng keyword radius)) \/
   (computed call = false /\
    exists t0 net0,
      In (t0, net0, k) h /\ (now < t0 + 3600)%nat /\
      result call =
        returned (search_places GOOGLE_API_KEY net0 lat lng keyword radius))) /\
  Forall (fun p =>
            0 <= Place.dist_km p /\
            exists lat2 lon2,
              py_float (Place.lat p) = inr lat2 /\
              py_float (Place.lng p) = inr lon2 /\
              haversine lat lng lat2 lon2 = inr (Place.dist_km p))
         (result call).
Proof.
  intros Hr k call.
  assert (Hcases :
    (computed call = true /\
     result call =
       returned (search_places GOOGLE_API_KEY net lat lng keyword radius)) \/
    (computed call = false /\
     exists t0 net0,
       In (t0, net0, k) h /\ (now < t0 + 3600)%nat /\
       result call =
         returned (search_places GOOGLE_API_KEY net0 lat lng keyword radius))).
  { unfold call, cached_search_places, cache_data.
    destruct (cache_lookup search_key_eq_dec k c) as [e |] eqn:Hl.
    - destruct (fresh TTL now e) eqn:Hf.
      + right. split; [reflexivity |].
        apply cache_lookup_In in Hl.
        destruct (reachable_values Hr _ _ Hl) as (net0 & Hh & Hv).
        exists (stored_at e), net0. split; [exact Hh |].
        split; [unfold fresh, TTL in Hf; now apply Nat.ltb_lt in Hf |].
        cbn [result]. now rewrite Hv.
      + left. split; reflexivity.
    - left. split; reflexivity. }
  split; [exact Hcases |].
  assert (Hnet : exists net',
             result call =
             returned (search_places GOOGLE_API_KEY net' lat lng keyword radius)).
  { destruct Hcases as [[_ H] | [_ (t0 & net0 & _ & _ & H)]]; eauto. }
  destruct Hnet as (net' & ->). rewrite Forall_forall. intros p Hp.
  apply search_places_returned_inv in Hp as (item & _ & Hnorm).
  destruct (normalize_inv _ _ _ Hnorm)
    as (fields & lat2 & lon2 & _ & _ & _ & _ & _ & _ & _ & _ & _ & _
        & Hf1 & Hf2 & Hd).
  split; [exact (haversine_nonneg _ _ _ _ Hd) |].
  exists lat2, lon2. auto.
Qed.

Lemma cached_results_are_search_results_witness :
  let k : search_key := (10.3119, 123.8916, "cafe"%string, 3000%Z) in
  let first := cached_search_places "key" [] 0 (replies answer_ok) k in
  let second := cached_search_places "key" (cache_after first) 60 times_out k in
  Forall (fun p => 0 <= Place.dist_km p) (result second).
Proof.
  intros k first second.
  assert (Hr : reachable "key" [(0%nat, replies answer_ok, k)] (cache_after first))
    by (apply reachable_call, reachable_empty).
  destruct (@cached_results_are_search_results
              "key" _ _ 60 times_out 10.3119 123.8916 "cafe" 3000 Hr)
    as [_ Hall].
  eapply Forall_impl; [| exact Hall]. intros p [Hp _]. exact Hp.
Defined.

(** ** Currency conversion and the sidebar *)

Lemma Int_part_le (x y : R) : x <= y -> (Int_part x <= Int_part y)%Z.
Proof.
  intros H. destruct (base_Int_part x) as [Hx _], (base_Int_part y) as [_ Hy].
  apply Z.lt_succ_r. apply lt_IZR. rewrite succ_IZR. lra.
Qed.

Lemma Int_part_IZR (z : Z) : Int_part (IZR z) = z.
Proof.
  destruct (base_Int_part (IZR z)) as [Hlo Hhi].
  apply Z.le_antisymm.
  - apply le_IZR. exact Hlo.
  - apply Z.lt_succ_r. apply lt_IZR. rewrite succ_IZR. lra.
Qed.

Lemma py_int_le (x y : R) : x <= y -> (py_int x <= py_int y)%Z.
Proof.
  intros H. unfold py_int.
  destruct (Rle_dec 0 x), (Rle_dec 0 y); try lra.
  - now apply Int_part_le.
  - assert (0 <= Int_part y)%Z
      by (rewrite <- (Int_part_IZR 0); now apply Int_part_le).
    assert (0 <= Int_part (- x))%Z
      by (rewrite <- (Int_part_IZR 0); apply Int_part_le; lra).
    lia.
  - assert (Int_part (- y) <= Int_part (- x))%Z by (apply Int_part_le; lra).
    lia.
Qed.

Lemma py_int_IZR (z : Z) : py_int (IZR z) = z.
Proof.
  unfold py_int. destruct (Rle_dec 0 (IZR z)).
  - apply Int_part_IZR.
  - rewrite <- opp_IZR, Int_part_IZR. lia.
Qed.

(** X18.  Converting to won keeps the order: a larger amount never
    converts to less, a higher rate never converts an amount that is not
    negative to less, and at a rate of 1 or more a whole amount below 2^53
    never converts to less than itself. *)
Theorem to_won_monotone :
  (forall a b rate, 0 <= rate -> a <= b -> (to_won a rate <= to_won b rate)%Z) /\
  (forall amount r1 r2,
      0 <= amount -> r1 <= r2 -> (to_won amount r1 <= to_won amount r2)%Z) /\
  (forall (z : Z) rate,
      (0 <= z < 2 ^ 53)%Z -> 1 <= rate -> (z <= to_won (IZR z) rate)%Z).
Proof.
  split; [| split].
  - intros a b rate Hr Hab. unfold to_won. apply py_int_le.
    now apply Rmult_le_compat_r.
  - intros amount r1 r2 Ha Hr. unfold to_won. apply py_int_le.
    now apply Rmult_le_compat_l.
  - intros z rate [Hz _] Hr. unfold to_won.
    rewrite <- (py_int_IZR z) at 1. apply py_int_le.
    apply IZR_le in Hz. nra.
Qed.

Lemma to_won_monotone_witness : (300 <= to_won (IZR 300) 24)%Z.
Proof.
  apply (proj2 (proj2 to_won_monotone) 300%Z 24); [lia | lra].
Defined.

Lemma table_get_missing {A : Type} (key : string) (d : list (string * A)) :
  ~ In key (keys d) -> table_get key d = inl (OtherException "KeyError").
Proof.
  induction d as [| [k v] d IH]; cbn; [reflexivity |]. intros H.
  destruct (String.eqb_spec k key) as [-> | _]; [elim H; now left |].
  apply IH. intros Hin. apply H. now right.
Qed.

Lemma hotels_row (hotel : string) :
  In hotel (keys HOTELS) ->
  exists base,
    table_get hotel HOTELS = inr base /\
    -90 <= fst base <= 90 /\ -180 <= snd base <= 180.
Proof.
  intros H. cbn in H.
  repeat destruct H as [<- | H]; try contradiction;
    (eexists; split; [reflexivity | cbn [fst snd]; lra]).
Qed.

Lemma categories_row (category : string) :
  In category (keys CATEGORIES) ->
  exists kw lo hi note,
    table_get category CATEGORIES = inr kw /\
    table_get category COST_TABLE = inr (lo, hi, note) /\
    kw <> ""%string /\ (0 < lo < hi)%Z.
Proof.
  intros H. cbn in H.
  repeat destruct H as [<- | H]; try contradiction;
    (do 4 eexists; split; [reflexivity |]; split; [reflexivity |];
     split; [discriminate | lia]).
Qed.

(** X19.  For every choice the sidebar offers (a hotel and a category of the
    tables, a radius of 1, 3 or 5 km, a rate from 1 to 100) the lookups
    succeed: the origin is a valid coordinate, the keyword is not empty,
    the radius sent is 1000, 3000 or 5000 m, the cost range is positive and
    proper, and its conversion to won keeps the order and lies between the
    peso amount and a hundred times it.  A hotel or category outside the
    tables raises KeyError. *)
Theorem sidebar_of_every_selection
    (hotel category : string) (radius_km : Z) (exchange_rate : R) :
  (In hotel (keys HOTELS) -> In category (keys CATEGORIES) ->
   In radius_km RADIUS_OPTIONS -> RATE_MIN <= exchange_rate <= RATE_MAX ->
   exists s,
     sidebar hotel category radius_km exchange_rate = inr s /\
     -90 <= Sidebar.base_lat s <= 90 /\
     -180 <= Sidebar.base_lng s <= 180 /\
     Sidebar.keyword s <> ""%string /\
     In (Sidebar.radius_m s) [1000; 3000; 5000]%Z /\
     (0 < Sidebar.cost_min s < Sidebar.cost_max s)%Z /\
     (Sidebar.cost_min s <= Sidebar.won_min s <= Sidebar.won_max s)%Z /\
     (Sidebar.won_max s <= 100 * Sidebar.cost_max s)%Z) /\
  (~ In hotel (keys HOTELS) \/ ~ In category (keys CATEGORIES) ->
   sidebar hotel category radius_km exchange_rate =
   inl (OtherException "KeyError")).
Proof.
  split.
  - intros Hh Hc Hr [Hlo Hhi]. unfold RATE_MIN, RATE_MAX in *.
    destruct (hotels_row Hh) as (base & Hbase & Hlat & Hlng).
    destruct (categories_row Hc) as (kw & lo & hi & note & Hkw & Hcost & Hne & Hrange).
    unfold sidebar. rewrite Hbase, Hkw. cbn [bind]. rewrite Hcost. cbn [bind ret].
    eexists. split; [reflexivity |].
    cbn [Sidebar.base_lat Sidebar.base_lng Sidebar.keyword Sidebar.radius_m
         Sidebar.cost_min Sidebar.cost_max Sidebar.won_min Sidebar.won_max].
    split; [exact Hlat |]. split; [exact Hlng |]. split; [exact Hne |].
    split.
    { cbn in Hr. cbn. repeat destruct Hr as [<- | Hr]; try contradiction; auto. }
    split; [exact Hrange |].
    assert (Hlo0 : 0 <= IZR lo) by (apply IZR_le; lia).
    assert (Hhi0 : 0 <= IZR hi) by (apply IZR_le; lia).
    assert (Hlh : IZR lo <= IZR hi) by (apply IZR_le; lia).
    split; [split |].
    + unfold to_won. rewrite <- (py_int_IZR lo) at 1. apply py_int_le. nra.
    + unfold to_won. apply py_int_le. nra.
    + apply le_IZR. rewrite mult_IZR.
      assert (H : IZR (to_won (IZR hi) exchange_rate) <= IZR hi * exchange_rate).
      { unfold to_won, py_int.
        destruct (Rle_dec 0 (IZR hi * exchange_rate)); [| nra].
        apply base_Int_part. }
      nra.
  - intros H. unfold sidebar.
    destruct (in_dec string_dec hotel (keys HOTELS)) as [Hh | Hh].
    + destruct H as [H | H]; [contradiction |].
      destruct (hotels_row Hh) as (base & -> & _). cbn [bind].
      now rewrite (@table_get_missing _ _ _ H).
    + now rewrite (@table_get_missing _ _ _ Hh).
Qed.

Lemma sidebar_of_every_selection_witness :
  exists s, sidebar "뫼벤픽 막탄 리조트" "☕ 카페" 3 24 = inr s /\
            In (Sidebar.radius_m s) [1000; 3000; 5000]%Z.
Proof.
  destruct (proj1 (sidebar_of_every_selection
                     "뫼벤픽 막탄 리조트" "☕ 카페" 3 24))
    as (s & Hs & _ & _ & _ & Hr & _).
  - cbn. auto.
  - cbn. auto.
  - cbn. auto.
  - unfold RATE_MIN, RATE_MAX. lra.
  - exists s. auto.
Defined.
